(** * riscemu: the CPU dispatch loop and the instruction handlers

    A shallow embedding of [riscemu/CPU.py].  Python integers are unbounded,
    so register values, immediates and the program counter are [Z]; the
    bitwise operators [&], [|], [^], [<<] and [>>] of Python are the
    two's-complement operations [Z.land], [Z.lor], [Z.lxor], [Z.shiftl] and
    [Z.shiftr] of [Z].  A method of the CPU object mutates the object and
    may raise, and what it mutated before raising stays mutated: a method is
    a function from the CPU state to an outcome and a new CPU state. *)

From Stdlib Require Import ZArith String List Bool Lia.
From Stdlib Require Strings.Byte.
Import ListNotations.

Local Open Scope string_scope.
Local Open Scope Z_scope.

(** ** Decoded instructions (produced by the decoder, consumed here) *)

(** Registers are referred to by name: the engine itself passes the
    strings ['sp'], ['a0'], ['ra'] and ['a7'] to the register file. *)
Definition reg := string.

(** An operand of a decoded instruction: a register reference, an immediate
    constant, or the combined [imm(reg)] memory operand. *)
Inductive operand : Type :=
| OReg (r : reg)
| OImm (imm : Z)
| OImmReg (imm : Z) (r : reg).

Record LoadedInstruction : Type := mkIns {
  name : string;
  args : list operand
}.

(** ** Exceptions *)

(** Modelled from the spec: [Exceptions.py] is not part of the sources.
    The four faults of the spec's taxonomy derive from
    [RiscemuBaseException]; [RuntimeError] and [TypeError] are Python's
    built-in exceptions, which do not. *)
Inductive exn : Type :=
| MemoryFault (msg : string)
| MalformedInstruction (msg : string)
| UnimplementedInstruction (ins : LoadedInstruction)
| SyscallFault (msg : string)
| RuntimeError (msg : string) (ins : LoadedInstruction)
| TypeError (msg : string).

(** [isinstance(ex, RiscemuBaseException)], the test of the [except]
    clause of the dispatch loop. *)
Definition is_RiscemuBaseException (ex : exn) : bool :=
  match ex with
  | MemoryFault _ | MalformedInstruction _
  | UnimplementedInstruction _ | SyscallFault _ => true
  | RuntimeError _ _ | TypeError _ => false
  end.

(** The outcome of a call: a value, or a raised exception. *)
Inductive res (A : Type) : Type :=
| Ok (a : A)
| Raise (ex : exn).
Arguments Ok {A} a.
Arguments Raise {A} ex.

(** ** Integer helpers *)

Definition XLEN : Z := 32.

(** Modelled from the spec: [helpers.to_unsigned] is not part of the
    sources.  The spec has it reinterpret a signed two's-complement word as
    unsigned. *)
Definition to_unsigned (num : Z) : Z := num mod 2 ^ XLEN.

(** Modelled from the spec: [helpers.to_signed] is not part of the sources.
    The spec has it reinterpret an unsigned word back as signed. *)
Definition to_signed (num : Z) : Z :=
  let w := num mod 2 ^ XLEN in
  if w <? 2 ^ (XLEN - 1) then w else w - 2 ^ XLEN.

(** Python's [int(a < b)]. *)
Definition int_of_bool (b : bool) : Z := if b then 1 else 0.

(** ** The register file *)

(** Modelled from the spec: [Registers.py] is not part of the sources.
    The spec gives the register file the contract [get(name) -> integer],
    [set(name, integer)]: every register holds an integer, [set] replaces
    the integer of one register and [get] reads it back. *)
Definition Registers := reg -> Z.

Definition Registers_get (rs : Registers) (r : reg) : Z := rs r.

Definition Registers_set (rs : Registers) (r : reg) (val : Z) : Registers :=
  fun r' => if String.eqb r r' then val else rs r'.

(** The register file of a freshly constructed engine. *)
Definition Registers_new : Registers := fun _ => 0.

(** ** Configuration and what the engine prints *)

Record RunConfig : Type := mkConf {
  include_scall_symbols : bool;
  debug_on_exception : bool
}.

(** The lines written to standard output by [__run]; the arguments are
    the values given to [format]. *)
Inductive event : Type :=
| PrintExceptionCaught (addr : Z) (ins : option LoadedInstruction)
| PrintMessage (ex : exn)
| PrintExited (code : Z).

(** ** Operand accessors of a decoded instruction *)

(** Modelled from the spec: the class of decoded instructions is not part
    of the sources.  [get_reg], [get_imm] and [get_imm_reg] read the operand
    at a position as a register, an immediate or an [imm(reg)] pair; an
    operand of another kind is a malformed instruction. *)
Definition get_reg (ins : LoadedInstruction) (num : nat) : res reg :=
  match nth_error (args ins) num with
  | Some (OReg r) => Ok r
  | _ => Raise (MalformedInstruction "register expected")
  end.

Definition get_imm (ins : LoadedInstruction) (num : nat) : res Z :=
  match nth_error (args ins) num with
  | Some (OImm imm) => Ok imm
  | _ => Raise (MalformedInstruction "immediate expected")
  end.

Definition get_imm_reg (ins : LoadedInstruction) (num : nat) : res (Z * reg) :=
  match nth_error (args ins) num with
  | Some (OImmReg imm r) => Ok (imm, r)
  | _ => Raise (MalformedInstruction "imm(reg) expected")
  end.

(** Modelled from the spec: [ASSERT_LEN] is not part of the sources.  An
    operand count other than the handler's arity is the malformed-instruction
    fault of the spec's taxonomy. *)
Definition ASSERT_LEN (a1 : list operand) (size : nat) : res unit :=
  if Nat.eqb (length a1) size then Ok tt
  else Raise (MalformedInstruction "unexpected operand count").

(** Modelled from the spec: [ASSERT_IN] is not part of the sources.  The
    engine calls it as [ASSERT_IN("(", ins.args[1])]: the operand at the
    position is written in the [imm(reg)] syntax. *)
Definition ASSERT_IN_paren (a : list operand) (num : nat) : res unit :=
  match nth_error a num with
  | Some (OImmReg _ _) => Ok tt
  | _ => Raise (MalformedInstruction "imm(reg) syntax expected")
  end.

(** Modelled from the spec: [INS_NOT_IMPLEMENTED] is not part of the
    sources.  It raises the unimplemented-instruction fault of the spec's
    taxonomy for the instruction it is given. *)
Definition INS_NOT_IMPLEMENTED {A : Type} (ins : LoadedInstruction) : res A :=
  Raise (UnimplementedInstruction ins).

(** ** The engine *)

(** The message handed to the debug session. *)
Inductive debug_message : Type :=
| DebugExceptionEncountered
| DebugInstructionEncountered (at_pc : Z).

(** The attributes of a [CPU] object, and the standard output of the
    process it runs in.  The memory [mmu] and the syscall interface
    [syscall_int] belong to collaborators that are not part of the sources:
    their states are of arbitrary types. *)
Record CPU (MMU SyscallInterface : Type) : Type := mkCPU {
  pc : Z;
  cycle : Z;
  exit : bool;
  exit_code : Z;
  conf : RunConfig;
  mmu : MMU;
  regs : Registers;
  syscall_int : SyscallInterface;
  stdout : list event
}.
Arguments mkCPU {MMU SyscallInterface}.
Arguments pc {MMU SyscallInterface} c.
Arguments cycle {MMU SyscallInterface} c.
Arguments exit {MMU SyscallInterface} c.
Arguments exit_code {MMU SyscallInterface} c.
Arguments conf {MMU SyscallInterface} c.
Arguments mmu {MMU SyscallInterface} c.
Arguments regs {MMU SyscallInterface} c.
Arguments syscall_int {MMU SyscallInterface} c.
Arguments stdout {MMU SyscallInterface} c.

(** ** Decoded forms used to state the properties *)

(** [name rd, rs1, rs2], [name rd, rs1, imm], [name rs1, rs2, target]. *)
Definition ins_rrr (n : string) (rd rs1 rs2 : reg) : LoadedInstruction :=
  mkIns n [OReg rd; OReg rs1; OReg rs2].

Definition ins_rri (n : string) (rd rs1 : reg) (imm : Z) : LoadedInstruction :=
  mkIns n [OReg rd; OReg rs1; OImm imm].

Definition ins_branch (n : string) (rs1 rs2 : reg) (target : Z)
  : LoadedInstruction :=
  mkIns n [OReg rs1; OReg rs2; OImm target].

(** The signed 32-bit range of a register of the emulated machine. *)
Definition int32 (v : Z) : Prop := - 2 ^ 31 <= v < 2 ^ 31.

(** ** A small machine to run the engine on

    Collaborators for concrete runs: a memory that holds decoded
    instructions at some addresses and nothing else, so that every other
    access is a memory fault; a syscall handler that knows the exit call
    only; a debug session that returns at once. *)
Module Example.

Definition Memory : Type := list (Z * LoadedInstruction).

Fixpoint read_ins (m : Memory) (addr : Z) : res LoadedInstruction :=
  match m with
  | [] => Raise (MemoryFault "no instruction at this address")
  | (a, i) :: m' => if a =? addr then Ok i else read_ins m' addr
  end.

Definition read (m : Memory) (addr size : Z) : res (list Byte.byte) :=
  Raise (MemoryFault "no data at this address").

Definition write (m : Memory) (addr size : Z) (data : list Byte.byte)
  : res unit * Memory :=
  (Raise (MemoryFault "no data at this address"), m).

Definition from_bytes (data : list Byte.byte) (unsigned : bool) : res Z :=
  Ok 0.

Definition to_bytes (val size : Z) : res (list Byte.byte) := Ok [].

(** [to_unsigned] of a register name, as Python has it. *)
Definition to_unsigned_ref (r : reg) : res reg :=
  Raise (TypeError "'<' not supported between instances of 'str' and 'int'").

Definition syscall (id : Z) (c : CPU Memory unit) : res unit * CPU Memory unit :=
  (Ok tt,
   mkCPU (pc c) (cycle c) true (Registers_get (regs c) "a0") (conf c) (mmu c)
         (regs c) (syscall_int c) (stdout c)).

Definition debug (msg : debug_message) (c : CPU Memory unit)
  : res unit * CPU Memory unit := (Ok tt, c).

(** An engine about to run the program [prog] from address [entry], with
    the registers [rs]. *)
Definition cpu (prog : Memory) (entry : Z) (rs : Registers) : CPU Memory unit :=
  mkCPU entry 0 false 0 (mkConf false false) prog rs tt [].

(** Registers [a0 = x] and [a1 = y], every other register zero. *)
Definition regs_a0_a1 (x y : Z) : Registers :=
  Registers_set (Registers_set Registers_new "a0" x) "a1" y.

End Example.

Section Engine.

Variable MMU : Type.
Variable SyscallInterface : Type.

(** The engine, for the collaborators at hand. *)
Local Abbreviation State := (CPU MMU SyscallInterface).

Definition with_pc (c : State) (v : Z) : State :=
  mkCPU v (cycle c) (exit c) (exit_code c) (conf c) (mmu c) (regs c)
        (syscall_int c) (stdout c).

Definition with_cycle (c : State) (v : Z) : State :=
  mkCPU (pc c) v (exit c) (exit_code c) (conf c) (mmu c) (regs c)
        (syscall_int c) (stdout c).

Definition with_mmu (c : State) (m : MMU) : State :=
  mkCPU (pc c) (cycle c) (exit c) (exit_code c) (conf c) m (regs c)
        (syscall_int c) (stdout c).

Definition with_regs (c : State) (rs : Registers) : State :=
  mkCPU (pc c) (cycle c) (exit c) (exit_code c) (conf c) (mmu c) rs
        (syscall_int c) (stdout c).

Definition print (ev : event) (c : State) : State :=
  mkCPU (pc c) (cycle c) (exit c) (exit_code c) (conf c) (mmu c) (regs c)
        (syscall_int c) (stdout c ++ [ev])%list.

(** [self.mmu.read_ins(addr)], [self.mmu.read(addr, size)] and
    [self.mmu.write(addr, size, data)]: each may raise, and [write] changes
    the memory. *)
Variable MMU_read_ins : MMU -> Z -> res LoadedInstruction.
Variable MMU_read : MMU -> Z -> Z -> res (list Byte.byte).
Variable MMU_write : MMU -> Z -> Z -> list Byte.byte -> res unit * MMU.

(** [helpers.int_from_bytes(bytes, unsigned)] and
    [helpers.int_to_bytes(val, bytes)]. *)
Variable int_from_bytes : list Byte.byte -> bool -> res Z.
Variable int_to_bytes : Z -> Z -> res (list Byte.byte).

(** [helpers.to_unsigned] at the one other type it is called at: [bltu] and
    [bgeu] pass it what [get_reg] returns, a reference to a register, and
    use what it returns as a reference to a register.  On a register name, a
    [str], the arithmetic of Python raises [TypeError]. *)
Variable to_unsigned_ref : reg -> res reg.

(** [self.syscall_int.handle_syscall(Syscall(id, self.regs, self))] and
    [launch_debug_session(self, self.mmu, self.regs, msg)]: both are handed
    the engine itself, and may change any of it. *)
Variable handle_syscall : Z -> State -> res unit * State.
Variable launch_debug_session : debug_message -> State -> res unit * State.

(** *** Methods: state passing with exceptions *)

Definition Py (A : Type) : Type := State -> res A * State.

Definition ret {A : Type} (a : A) : Py A := fun c => (Ok a, c).

Definition bind {A B : Type} (m : Py A) (k : A -> Py B) : Py B :=
  fun c =>
    match m c with
    | (Ok a, c') => k a c'
    | (Raise ex, c') => (Raise ex, c')
    end.

(** A call that does not touch the engine. *)
Definition pure {A : Type} (r : res A) : Py A := fun c => (r, c).

Notation "x <- m ;; k" := (bind m (fun x => k))
  (at level 61, m at next level, right associativity).
Notation "m ;;; k" := (bind m (fun _ => k))
  (at level 61, right associativity).

Definition regs_get (r : reg) : Py Z :=
  fun c => (Ok (Registers_get (regs c) r), c).

Definition regs_set (r : reg) (val : Z) : Py unit :=
  fun c => (Ok tt, with_regs c (Registers_set (regs c) r val)).

Definition get_pc : Py Z := fun c => (Ok (pc c), c).

Definition set_pc (v : Z) : Py unit := fun c => (Ok tt, with_pc c v).

Definition mmu_read (addr size : Z) : Py (list Byte.byte) :=
  fun c => (MMU_read (mmu c) addr size, c).

Definition mmu_write (addr size : Z) (data : list Byte.byte) : Py unit :=
  fun c => let (r, m) := MMU_write (mmu c) addr size data in (r, with_mmu c m).

(** *** Memory instructions *)

(** [__parse_mem_ins]: parses both [rd, rs1, imm] and [rd, imm(rs1)]
    arguments and returns [(rd, imm + rs1)]. *)
Definition parse_mem_ins (ins : LoadedInstruction) : Py (reg * Z) :=
  p <- (if Nat.eqb (length (args ins)) 3 then
          rs1 <- pure (get_reg ins 1) ;;
          imm <- pure (get_imm ins 2) ;;
          ret (rs1, imm)
        else
          pure (ASSERT_LEN (args ins) 2) ;;;
          pure (ASSERT_IN_paren (args ins) 1) ;;;
          ir <- pure (get_imm_reg ins 1) ;;
          ret (snd ir, fst ir)) ;;
  rd <- pure (get_reg ins 0) ;;
  base <- regs_get (fst p) ;;
  ret (rd, base + snd p).

(** The loads: [self.regs.set(rd, int_from_bytes(self.mmu.read(addr, n)))],
    with [unsigned=True] for [lbu] and [lhu].  There is no [lwu]. *)
Definition instruction_lb (ins : LoadedInstruction) : Py unit :=
  rd_addr <- parse_mem_ins ins ;;
  data <- mmu_read (snd rd_addr) 1 ;;
  val <- pure (int_from_bytes data false) ;;
  regs_set (fst rd_addr) val.

Definition instruction_lh (ins : LoadedInstruction) : Py unit :=
  rd_addr <- parse_mem_ins ins ;;
  data <- mmu_read (snd rd_addr) 2 ;;
  val <- pure (int_from_bytes data false) ;;
  regs_set (fst rd_addr) val.

Definition instruction_lw (ins : LoadedInstruction) : Py unit :=
  rd_addr <- parse_mem_ins ins ;;
  data <- mmu_read (snd rd_addr) 4 ;;
  val <- pure (int_from_bytes data false) ;;
  regs_set (fst rd_addr) val.

Definition instruction_lbu (ins : LoadedInstruction) : Py unit :=
  rd_addr <- parse_mem_ins ins ;;
  data <- mmu_read (snd rd_addr) 1 ;;
  val <- pure (int_from_bytes data true) ;;
  regs_set (fst rd_addr) val.

Definition instruction_lhu (ins : LoadedInstruction) : Py unit :=
  rd_addr <- parse_mem_ins ins ;;
  data <- mmu_read (snd rd_addr) 2 ;;
  val <- pure (int_from_bytes data true) ;;
  regs_set (fst rd_addr) val.

(** The stores: [self.mmu.write(addr, n, int_to_bytes(self.regs.get(rd), n))]. *)
Definition instruction_sb (ins : LoadedInstruction) : Py unit :=
  rd_addr <- parse_mem_ins ins ;;
  val <- regs_get (fst rd_addr) ;;
  data <- pure (int_to_bytes val 1) ;;
  mmu_write (snd rd_addr) 1 data.

Definition instruction_sh (ins : LoadedInstruction) : Py unit :=
  rd_addr <- parse_mem_ins ins ;;
  val <- regs_get (fst rd_addr) ;;
  data <- pure (int_to_bytes val 2) ;;
  mmu_write (snd rd_addr) 2 data.

Definition instruction_sw (ins : LoadedInstruction) : Py unit :=
  rd_addr <- parse_mem_ins ins ;;
  val <- regs_get (fst rd_addr) ;;
  data <- pure (int_to_bytes val 4) ;;
  mmu_write (snd rd_addr) 4 data.

(** *** Shifts

    The distance is [... & 0b11111] in all six handlers. *)

Definition instruction_sll (ins : LoadedInstruction) : Py unit :=
  pure (ASSERT_LEN (args ins) 3) ;;;
  dst <- pure (get_reg ins 0) ;;
  src1 <- pure (get_reg ins 1) ;;
  src2 <- pure (get_reg ins 2) ;;
  a <- regs_get src1 ;;
  b <- regs_get src2 ;;
  regs_set dst (to_signed (Z.shiftl (to_unsigned a) (Z.land b 31))).

Definition instruction_slli (ins : LoadedInstruction) : Py unit :=
  pure (ASSERT_LEN (args ins) 3) ;;;
  dst <- pure (get_reg ins 0) ;;
  src1 <- pure (get_reg ins 1) ;;
  imm <- pure (get_imm ins 2) ;;
  a <- regs_get src1 ;;
  regs_set dst (to_signed (Z.shiftl (to_unsigned a) (Z.land imm 31))).

Definition instruction_srl (ins : LoadedInstruction) : Py unit :=
  pure (ASSERT_LEN (args ins) 3) ;;;
  dst <- pure (get_reg ins 0) ;;
  src1 <- pure (get_reg ins 1) ;;
  src2 <- pure (get_reg ins 2) ;;
  a <- regs_get src1 ;;
  b <- regs_get src2 ;;
  regs_set dst (to_signed (Z.shiftr (to_unsigned a) (Z.land b 31))).

Definition instruction_srli (ins : LoadedInstruction) : Py unit :=
  pure (ASSERT_LEN (args ins) 3) ;;;
  dst <- pure (get_reg ins 0) ;;
  src1 <- pure (get_reg ins 1) ;;
  imm <- pure (get_imm ins 2) ;;
  a <- regs_get src1 ;;
  regs_set dst (to_signed (Z.shiftr (to_unsigned a) (Z.land imm 31))).

Definition instruction_sra (ins : LoadedInstruction) : Py unit :=
  pure (ASSERT_LEN (args ins) 3) ;;;
  dst <- pure (get_reg ins 0) ;;
  src1 <- pure (get_reg ins 1) ;;
  src2 <- pure (get_reg ins 2) ;;
  a <- regs_get src1 ;;
  b <- regs_get src2 ;;
  regs_set dst (Z.shiftr a (Z.land b 31)).

Definition instruction_srai (ins : LoadedInstruction) : Py unit :=
  pure (ASSERT_LEN (args ins) 3) ;;;
  dst <- pure (get_reg ins 0) ;;
  src1 <- pure (get_reg ins 1) ;;
  imm <- pure (get_imm ins 2) ;;
  a <- regs_get src1 ;;
  regs_set dst (Z.shiftr a (Z.land imm 31)).

(** *** Arithmetic and logic

    [add], [addi] and [sub] hand Python's [+] and [-] of the operands to
    [self.regs.set]. *)

Definition instruction_add (ins : LoadedInstruction) : Py unit :=
  pure (ASSERT_LEN (args ins) 3) ;;;
  dst <- pure (get_reg ins 0) ;;
  src1 <- pure (get_reg ins 1) ;;
  src2 <- pure (get_reg ins 2) ;;
  a <- regs_get src1 ;;
  b <- regs_get src2 ;;
  regs_set dst (a + b).

Definition instruction_addi (ins : LoadedInstruction) : Py unit :=
  pure (ASSERT_LEN (args ins) 3) ;;;
  dst <- pure (get_reg ins 0) ;;
  src1 <- pure (get_reg ins 1) ;;
  imm <- pure (get_imm ins 2) ;;
  a <- regs_get src1 ;;
  regs_set dst (a + imm).

Definition instruction_sub (ins : LoadedInstruction) : Py unit :=
  pure (ASSERT_LEN (args ins) 3) ;;;
  dst <- pure (get_reg ins 0) ;;
  src1 <- pure (get_reg ins 1) ;;
  src2 <- pure (get_reg ins 2) ;;
  a <- regs_get src1 ;;
  b <- regs_get src2 ;;
  regs_set dst (a - b).

Definition instruction_lui (ins : LoadedInstruction) : Py unit :=
  pure (INS_NOT_IMPLEMENTED ins).

Definition instruction_auipc (ins : LoadedInstruction) : Py unit :=
  pure (INS_NOT_IMPLEMENTED ins).

Definition instruction_xor (ins : LoadedInstruction) : Py unit :=
  pure (ASSERT_LEN (args ins) 3) ;;;
  dst <- pure (get_reg ins 0) ;;
  src1 <- pure (get_reg ins 1) ;;
  src2 <- pure (get_reg ins 2) ;;
  a <- regs_get src1 ;;
  b <- regs_get src2 ;;
  regs_set dst (Z.lxor a b).

Definition instruction_xori (ins : LoadedInstruction) : Py unit :=
  pure (INS_NOT_IMPLEMENTED ins).

Definition instruction_or (ins : LoadedInstruction) : Py unit :=
  pure (ASSERT_LEN (args ins) 3) ;;;
  dst <- pure (get_reg ins 0) ;;
  src1 <- pure (get_reg ins 1) ;;
  src2 <- pure (get_reg ins 2) ;;
  a <- regs_get src1 ;;
  b <- regs_get src2 ;;
  regs_set dst (Z.lor a b).

Definition instruction_ori (ins : LoadedInstruction) : Py unit :=
  pure (INS_NOT_IMPLEMENTED ins).

Definition instruction_and (ins : LoadedInstruction) : Py unit :=
  pure (ASSERT_LEN (args ins) 3) ;;;
  dst <- pure (get_reg ins 0) ;;
  src1 <- pure (get_reg ins 1) ;;
  src2 <- pure (get_reg ins 2) ;;
  a <- regs_get src1 ;;
  b <- regs_get src2 ;;
  regs_set dst (Z.land a b).

Definition instruction_andi (ins : LoadedInstruction) : Py unit :=
  pure (INS_NOT_IMPLEMENTED ins).

Definition instruction_slt (ins : LoadedInstruction) : Py unit :=
  pure (ASSERT_LEN (args ins) 3) ;;;
  dst <- pure (get_reg ins 0) ;;
  src1 <- pure (get_reg ins 1) ;;
  src2 <- pure (get_reg ins 2) ;;
  a <- regs_get src1 ;;
  b <- regs_get src2 ;;
  regs_set dst (int_of_bool (a <? b)).

Definition instruction_slti (ins : LoadedInstruction) : Py unit :=
  pure (INS_NOT_IMPLEMENTED ins).

Definition instruction_sltu (ins : LoadedInstruction) : Py unit :=
  pure (ASSERT_LEN (args ins) 3) ;;;
  dst <- pure (get_reg ins 0) ;;
  src1 <- pure (get_reg ins 1) ;;
  src2 <- pure (get_reg ins 2) ;;
  a <- regs_get src1 ;;
  b <- regs_get src2 ;;
  regs_set dst (int_of_bool (to_unsigned a <? to_unsigned b)).

Definition instruction_sltiu (ins : LoadedInstruction) : Py unit :=
  pure (INS_NOT_IMPLEMENTED ins).

(** *** Branches *)

Definition instruction_beq (ins : LoadedInstruction) : Py unit :=
  pure (ASSERT_LEN (args ins) 3) ;;;
  reg1 <- pure (get_reg ins 0) ;;
  reg2 <- pure (get_reg ins 1) ;;
  dest <- pure (get_imm ins 2) ;;
  a <- regs_get reg1 ;;
  b <- regs_get reg2 ;;
  if a =? b then set_pc dest else ret tt.

Definition instruction_bne (ins : LoadedInstruction) : Py unit :=
  pure (ASSERT_LEN (args ins) 3) ;;;
  reg1 <- pure (get_reg ins 0) ;;
  reg2 <- pure (get_reg ins 1) ;;
  dest <- pure (get_imm ins 2) ;;
  a <- regs_get reg1 ;;
  b <- regs_get reg2 ;;
  if negb (a =? b) then set_pc dest else ret tt.

Definition instruction_blt (ins : LoadedInstruction) : Py unit :=
  pure (ASSERT_LEN (args ins) 3) ;;;
  reg1 <- pure (get_reg ins 0) ;;
  reg2 <- pure (get_reg ins 1) ;;
  dest <- pure (get_imm ins 2) ;;
  a <- regs_get reg1 ;;
  b <- regs_get reg2 ;;
  if a <? b then set_pc dest else ret tt.

Definition instruction_bge (ins : LoadedInstruction) : Py unit :=
  pure (ASSERT_LEN (args ins) 3) ;;;
  reg1 <- pure (get_reg ins 0) ;;
  reg2 <- pure (get_reg ins 1) ;;
  dest <- pure (get_imm ins 2) ;;
  a <- regs_get reg1 ;;
  b <- regs_get reg2 ;;
  if a >=? b then set_pc dest else ret tt.

(** [bltu] and [bgeu] are written
    [reg1 = to_unsigned(ins.get_reg(0))], [reg2 = to_unsigned(ins.get_reg(1))]
    and then compare [self.regs.get(reg1)] with [self.regs.get(reg2)]:
    [to_unsigned] is applied to the register names, not to the values
    read from the registers. *)
Definition instruction_bltu (ins : LoadedInstruction) : Py unit :=
  pure (ASSERT_LEN (args ins) 3) ;;;
  r0 <- pure (get_reg ins 0) ;;
  reg1 <- pure (to_unsigned_ref r0) ;;
  r1 <- pure (get_reg ins 1) ;;
  reg2 <- pure (to_unsigned_ref r1) ;;
  dest <- pure (get_imm ins 2) ;;
  a <- regs_get reg1 ;;
  b <- regs_get reg2 ;;
  if a <? b then set_pc dest else ret tt.

Definition instruction_bgeu (ins : LoadedInstruction) : Py unit :=
  pure (ASSERT_LEN (args ins) 3) ;;;
  r0 <- pure (get_reg ins 0) ;;
  reg1 <- pure (to_unsigned_ref r0) ;;
  r1 <- pure (get_reg ins 1) ;;
  reg2 <- pure (to_unsigned_ref r1) ;;
  dest <- pure (get_imm ins 2) ;;
  a <- regs_get reg1 ;;
  b <- regs_get reg2 ;;
  if a >=? b then set_pc dest else ret tt.

(** *** Jumps *)

Definition instruction_j (ins : LoadedInstruction) : Py unit :=
  pure (ASSERT_LEN (args ins) 1) ;;;
  addr <- pure (get_imm ins 0) ;;
  set_pc addr.

Definition instruction_jal (ins : LoadedInstruction) : Py unit :=
  reg_addr <- (if Nat.eqb (length (args ins)) 1 then
                 addr <- pure (get_imm ins 0) ;;
                 ret ("ra", addr)
               else
                 pure (ASSERT_LEN (args ins) 2) ;;;
                 r <- pure (get_reg ins 0) ;;
                 addr <- pure (get_imm ins 1) ;;
                 ret (r, addr)) ;;
  link <- get_pc ;;
  regs_set (fst reg_addr) link ;;;
  set_pc (snd reg_addr).

Definition instruction_jalr (ins : LoadedInstruction) : Py unit :=
  pure (ASSERT_LEN (args ins) 2) ;;;
  r <- pure (get_reg ins 0) ;;
  addr <- pure (get_imm ins 1) ;;
  link <- get_pc ;;
  regs_set r link ;;;
  set_pc addr.

Definition instruction_ret (ins : LoadedInstruction) : Py unit :=
  pure (ASSERT_LEN (args ins) 0) ;;;
  addr <- regs_get "ra" ;;
  set_pc addr.

(** *** System *)

Definition instruction_scall (ins : LoadedInstruction) : Py unit :=
  pure (ASSERT_LEN (args ins) 0) ;;;
  id <- regs_get "a7" ;;
  handle_syscall id.

Definition instruction_sbreak (ins : LoadedInstruction) : Py unit :=
  at_pc <- get_pc ;;
  launch_debug_session (DebugInstructionEncountered at_pc).

Definition instruction_ecall (ins : LoadedInstruction) : Py unit :=
  instruction_scall ins.

Definition instruction_ebreak (ins : LoadedInstruction) : Py unit :=
  instruction_sbreak ins.

Definition instruction_nop (ins : LoadedInstruction) : Py unit :=
  ret tt.

(** *** Dispatch *)

(** The [_CPU__instruction_*] attributes of the class, in the order of the
    class body, under the mnemonic that follows the prefix. *)
Definition instructions : list (string * (LoadedInstruction -> Py unit)) :=
  [ ("lb", instruction_lb); ("lh", instruction_lh); ("lw", instruction_lw);
    ("lbu", instruction_lbu); ("lhu", instruction_lhu);
    ("sb", instruction_sb); ("sh", instruction_sh); ("sw", instruction_sw);
    ("sll", instruction_sll); ("slli", instruction_slli);
    ("srl", instruction_srl); ("srli", instruction_srli);
    ("sra", instruction_sra); ("srai", instruction_srai);
    ("add", instruction_add); ("addi", instruction_addi);
    ("sub", instruction_sub);
    ("lui", instruction_lui); ("auipc", instruction_auipc);
    ("xor", instruction_xor); ("xori", instruction_xori);
    ("or", instruction_or); ("ori", instruction_ori);
    ("and", instruction_and); ("andi", instruction_andi);
    ("slt", instruction_slt); ("slti", instruction_slti);
    ("sltu", instruction_sltu); ("sltiu", instruction_sltiu);
    ("beq", instruction_beq); ("bne", instruction_bne);
    ("blt", instruction_blt); ("bge", instruction_bge);
    ("bltu", instruction_bltu); ("bgeu", instruction_bgeu);
    ("j", instruction_j); ("jal", instruction_jal);
    ("jalr", instruction_jalr); ("ret", instruction_ret);
    ("ecall", instruction_ecall); ("ebreak", instruction_ebreak);
    ("scall", instruction_scall); ("sbreak", instruction_sbreak);
    ("nop", instruction_nop) ].

(** [CPU.all_instructions()]. *)
Definition all_instructions : list string := map fst instructions.

(** [getattr(self, '_CPU__instruction_' + name)], when [hasattr] holds. *)
Fixpoint getattr_instruction
  (table : list (string * (LoadedInstruction -> Py unit))) (n : string)
  : option (LoadedInstruction -> Py unit) :=
  match table with
  | [] => None
  | (m, h) :: table' =>
      if String.eqb m n then Some h else getattr_instruction table' n
  end.

(** [__run_instruction]. *)
Definition run_instruction (ins : LoadedInstruction) : Py unit :=
  match getattr_instruction instructions (name ins) with
  | Some handler => handler ins
  | None => pure (Raise (RuntimeError "Unknown instruction" ins))
  end.

(** *** The dispatch loop *)

(** How the [while] loop of [__run] is left: its condition failed, an
    exception was raised in its body, or the fuel of the model ran out. *)
Inductive loop_end : Type :=
| LoopExit
| LoopRaised (ex : exn)
| LoopOutOfFuel.

(** The [while not self.exit] loop; [ins] is the local variable of
    [__run] that holds the instruction fetched last. *)
Fixpoint run_loop (fuel : nat) (ins : option LoadedInstruction) (c : State)
  : loop_end * option LoadedInstruction * State :=
  if exit c then (LoopExit, ins, c) else
  match fuel with
  | O => (LoopOutOfFuel, ins, c)
  | S fuel' =>
      let c1 := with_cycle c (cycle c + 1) in
      match MMU_read_ins (mmu c1) (pc c1) with
      | Raise ex => (LoopRaised ex, ins, c1)
      | Ok i =>
          let c2 := with_pc c1 (pc c1 + 1) in
          match run_instruction i c2 with
          | (Raise ex, c3) => (LoopRaised ex, Some i, c3)
          | (Ok _, c3) => run_loop fuel' (Some i) c3
          end
      end
  end.

(** How a call of [__run] ends: it returns ([False] when pc is not
    positive, [None] otherwise), an exception leaves it, or the fuel of the
    model ran out. *)
Inductive run_end : Type :=
| Returned (value : option bool)
| Propagated (ex : exn)
| OutOfFuel.

(** [__run]. *)
Definition run (fuel : nat) (c : State) : run_end * State :=
  if pc c <=? 0 then (Returned (Some false), c) else
  match run_loop fuel None c with
  | (LoopOutOfFuel, _, c') => (OutOfFuel, c')
  | (LoopExit, _, c') => (Returned None, print (PrintExited (exit_code c')) c')
  | (LoopRaised ex, ins, c') =>
      if is_RiscemuBaseException ex then
        let c1 := print (PrintExceptionCaught (pc c' - 1) ins) c' in
        let c2 := print (PrintMessage ex) c1 in
        if debug_on_exception (conf c2) then
          match launch_debug_session DebugExceptionEncountered c2 with
          | (Raise ex', c3) => (Propagated ex', c3)
          | (Ok _, c3) => (Returned None, print (PrintExited (exit_code c3)) c3)
          end
        else (Returned None, print (PrintExited (exit_code c2)) c2)
      else (Propagated ex, c')
  end.

(** One pass through the body of the loop: count the cycle, fetch, advance
    pc, dispatch. *)
Definition step (c : State) : res unit * State :=
  let c1 := with_cycle c (cycle c + 1) in
  match MMU_read_ins (mmu c1) (pc c1) with
  | Raise ex => (Raise ex, c1)
  | Ok i => run_instruction i (with_pc c1 (pc c1 + 1))
  end.

(** What [__init__] leaves in the attributes owned by the engine, given the
    memory and the syscall interface it constructed. *)
Definition init (cf : RunConfig) (m : MMU) (si : SyscallInterface) : State :=
  mkCPU 0 0 false 0 cf m Registers_new si [].

(** [run_loaded], for a loaded executable with entry [run_ptr] and
    [stack_heap = (sp, hp)]. *)
Definition run_loaded (fuel : nat) (run_ptr sp hp : Z) (c : State)
  : run_end * State :=
  let c1 := with_pc c run_ptr in
  let c2 := with_regs c1 (Registers_set (regs c1) "sp" sp) in
  let c3 := with_regs c2 (Registers_set (regs c2) "a0" hp) in
  run fuel c3.

(** * Properties *)

(** [after_passes n last c] is the local [ins] and the engine after the
    loop, entered with [ins = last] and the engine [c], has gone through its
    body [n] times without raising and without finding the exit flag set
    before any of these passes. *)
Fixpoint after_passes (n : nat) (last : option LoadedInstruction) (c : State)
  : option (option LoadedInstruction * State) :=
  match n with
  | O => Some (last, c)
  | S n' =>
      if exit c then None else
      let c1 := with_cycle c (cycle c + 1) in
      match MMU_read_ins (mmu c1) (pc c1) with
      | Raise _ => None
      | Ok i =>
          match run_instruction i (with_pc c1 (pc c1 + 1)) with
          | (Ok _, c3) => after_passes n' (Some i) c3
          | (Raise _, _) => None
          end
      end
  end.

(** A method that leaves pc as it found it, whether it returns or raises. *)
Definition preserves_pc {A : Type} (m : Py A) : Prop :=
  forall c, pc (snd (m c)) = pc c.

(** The mnemonics whose handlers are [INS_NOT_IMPLEMENTED(ins)]. *)
Definition unimplemented : list string :=
  ["lui"; "auipc"; "xori"; "ori"; "andi"; "slti"; "sltiu"].

(** The arithmetic, logic, shift and comparison mnemonics that have an
    implementation, the loads and stores, and [nop]. *)
Definition straight_line : list string :=
  ["add"; "addi"; "sub"; "and"; "or"; "xor"; "sll"; "slli"; "srl"; "srli";
   "sra"; "srai"; "slt"; "sltu";
   "lb"; "lh"; "lw"; "lbu"; "lhu"; "sb"; "sh"; "sw"; "nop"].


(** What a handler with a destination register leaves behind when it
    stores [v] in [rd] and returns. *)
Definition stores (c : State) (rd : reg) (v : Z) : res unit * State :=
  (Ok tt, with_regs c (Registers_set (regs c) rd v)).

(** A zero-filled (logical) right shift of the word [a] by [k]: [v] is a
    signed word whose unsigned reading is the unsigned reading of [a]
    divided by [2 ^ k]; bit [i] of [v] is bit [i + k] of [a], and the [k]
    vacated high bits are 0. *)
Definition zero_filled_shift (a k v : Z) : Prop :=
  int32 v /\
  to_unsigned v = to_unsigned a / 2 ^ k /\
  (forall i, 0 <= i < 32 ->
     Z.testbit v i = if i + k <? 32 then Z.testbit a (i + k) else false) /\
  (1 <= k -> 0 <= v).

(** A sign-filled (arithmetic) right shift of the word [a] by [k]: [w] is
    the signed value of [a] divided by [2 ^ k], rounded down; bit [i] of [w]
    is bit [i + k] of [a], the [k] vacated high bits are copies of the sign
    bit, and [w] has the sign of [a]. *)
Definition sign_filled_shift (a k w : Z) : Prop :=
  int32 w /\
  w = a / 2 ^ k /\
  (forall i, 0 <= i < 32 ->
     Z.testbit w i = if i + k <? 32 then Z.testbit a (i + k) else Z.testbit a 31) /\
  (a < 0 <-> w < 0).

(** The unsigned comparisons of two stored words. *)
Definition ltu (a b : Z) : bool := to_unsigned a <? to_unsigned b.
Definition geu (a b : Z) : bool := to_unsigned a >=? to_unsigned b.

(** A branch [n] behaves as specified for the condition [cond]: with two
    register operands and an immediate target it returns, pc is the target
    when the condition holds on the values of the two registers, and the
    engine is as it was when the condition fails. *)
Definition branch_as_specified (n : string) (cond : Z -> Z -> bool) : Prop :=
  forall (c : State) (rs1 rs2 : reg) (target : Z),
    run_instruction (ins_branch n rs1 rs2 target) c
    = (Ok tt,
       if cond (Registers_get (regs c) rs1) (Registers_get (regs c) rs2)
       then with_pc c target else c).

(** pc after the branch [n a0, a1, 100] is executed with the registers [rs]
    and pc at the fallthrough value 5. *)
Definition pc_after_branch (n : string) (rs : Registers) (c : State) : Z :=
  pc (snd (run_instruction (ins_branch n "a0" "a1" 100)
             (with_pc (with_regs c rs) 5))).

(** ** Classes of mnemonics and frames *)

(** The mnemonics whose handlers hand the engine to a collaborator. *)
Definition handoff : list string := ["ecall"; "ebreak"; "scall"; "sbreak"].

Definition loads : list string := ["lb"; "lh"; "lw"; "lbu"; "lhu"].

Definition stores_to_memory : list string := ["sb"; "sh"; "sw"].

(** The implemented instructions with a destination register. *)
Definition register_writers : list string :=
  ["sll"; "slli"; "srl"; "srli"; "sra"; "srai"; "add"; "addi"; "sub";
   "xor"; "or"; "and"; "slt"; "sltu"; "lb"; "lh"; "lw"; "lbu"; "lhu"].

(** The instructions that redirect pc without linking. *)
Definition pc_writers : list string :=
  ["beq"; "bne"; "blt"; "bge"; "bltu"; "bgeu"; "j"; "ret"].

(** A method whose effect on the engine, whether it returns or raises,
    stays within the relation [R]. *)
Definition respects (R : State -> State -> Prop) {A : Type} (m : Py A) : Prop :=
  forall c, R c (snd (m c)).

(** The attributes of the engine that control the run, and its output,
    are the same in [c'] as in [c]. *)
Definition same_control (c c' : State) : Prop :=
  cycle c' = cycle c /\ exit c' = exit c /\ exit_code c' = exit_code c /\
  conf c' = conf c /\ syscall_int c' = syscall_int c /\ stdout c' = stdout c.

(** [c'] is [c] up to the named attribute. *)
Definition only_mmu (c c' : State) : Prop := exists m, c' = with_mmu c m.
Definition only_pc (c c' : State) : Prop := exists v, c' = with_pc c v.

(** [c'] is [c], or [c] with one register written: the register named by
    the first operand of [ins]. *)
Definition writes_destination_only
  (ins : LoadedInstruction) (c c' : State) : Prop :=
  c' = c \/
  exists rd v,
    nth_error (args ins) 0 = Some (OReg rd) /\
    c' = with_regs c (Registers_set (regs c) rd v).

(** The instructions fetched by the first [n] passes of the loop entered
    with the engine [c], up to the first pass that raises. *)
Fixpoint fetched (n : nat) (c : State) : list LoadedInstruction :=
  match n with
  | O => []
  | S n' =>
      let c1 := with_cycle c (cycle c + 1) in
      match MMU_read_ins (mmu c1) (pc c1) with
      | Raise _ => []
      | Ok i =>
          i :: match run_instruction i (with_pc c1 (pc c1 + 1)) with
               | (Ok _, c3) => fetched n' c3
               | (Raise _, _) => []
               end
      end
  end.

(** [name rd, imm(rs1)], the combined syntax of a memory operand. *)
Definition ins_mem (n : string) (rd : reg) (imm : Z) (rs1 : reg)
  : LoadedInstruction :=
  mkIns n [OReg rd; OImmReg imm rs1].

(** The access width, and for a load the [unsigned] flag, of each memory
    instruction. *)
Definition load_widths : list (string * (Z * bool)) :=
  [("lb", (1, false)); ("lh", (2, false)); ("lw", (4, false));
   ("lbu", (1, true)); ("lhu", (2, true))].

Definition store_widths : list (string * Z) :=
  [("sb", 1); ("sh", 2); ("sw", 4)].

(** A load of [size] bytes at the address [rs1 + imm] into [rd]. *)
Definition load_at (size : Z) (unsigned : bool) (rd rs1 : reg) (imm : Z)
  (c : State) : res unit * State :=
  match MMU_read (mmu c) (Registers_get (regs c) rs1 + imm) size with
  | Raise ex => (Raise ex, c)
  | Ok data =>
      match int_from_bytes data unsigned with
      | Raise ex => (Raise ex, c)
      | Ok val => stores c rd val
      end
  end.

(** A store of the low [size] bytes of [rs2] at the address [rs1 + imm]. *)
Definition store_at (size : Z) (rs2 rs1 : reg) (imm : Z) (c : State)
  : res unit * State :=
  match int_to_bytes (Registers_get (regs c) rs2) size with
  | Raise ex => (Raise ex, c)
  | Ok data =>
      let (r, m) := MMU_write (mmu c) (Registers_get (regs c) rs1 + imm) size data in
      (r, with_mmu c m)
  end.

(** The operand counts each handler accepts; the handlers of the
    unimplemented instructions, of [ebreak], [sbreak] and [nop] do not look
    at their operands. *)
Definition operand_counts : list (string * list nat) :=
  [("lb", [2; 3]); ("lh", [2; 3]); ("lw", [2; 3]); ("lbu", [2; 3]);
   ("lhu", [2; 3]); ("sb", [2; 3]); ("sh", [2; 3]); ("sw", [2; 3]);
   ("sll", [3]); ("slli", [3]); ("srl", [3]); ("srli", [3]); ("sra", [3]);
   ("srai", [3]); ("add", [3]); ("addi", [3]); ("sub", [3]); ("xor", [3]);
   ("or", [3]); ("and", [3]); ("slt", [3]); ("sltu", [3]);
   ("beq", [3]); ("bne", [3]); ("blt", [3]); ("bge", [3]); ("bltu", [3]);
   ("bgeu", [3]);
   ("j", [1]); ("jal", [1; 2]); ("jalr", [2]); ("ret", [0]);
   ("ecall", [0]); ("scall", [0])]%nat.

(** ** Shifts *)

Lemma land_31_mod_32 (n : Z) : Z.land n 31 = n mod 32.
Proof.
  change 31 with (Z.ones 5).
  rewrite Z.land_ones by lia.
  reflexivity.
Qed.

(** What the six shift handlers do to the engine, with the distance
    written as a remainder. *)
Lemma shift_handlers (c : State) (rd rs1 rs2 : reg) (imm : Z) :
  let a := Registers_get (regs c) rs1 in
  let b := Registers_get (regs c) rs2 in
  run_instruction (ins_rrr "sll" rd rs1 rs2) c
    = stores c rd (to_signed (Z.shiftl (to_unsigned a) (b mod 32))) /\
  run_instruction (ins_rrr "srl" rd rs1 rs2) c
    = stores c rd (to_signed (Z.shiftr (to_unsigned a) (b mod 32))) /\
  run_instruction (ins_rrr "sra" rd rs1 rs2) c
    = stores c rd (Z.shiftr a (b mod 32)) /\
  run_instruction (ins_rri "slli" rd rs1 imm) c
    = stores c rd (to_signed (Z.shiftl (to_unsigned a) (imm mod 32))) /\
  run_instruction (ins_rri "srli" rd rs1 imm) c
    = stores c rd (to_signed (Z.shiftr (to_unsigned a) (imm mod 32))) /\
  run_instruction (ins_rri "srai" rd rs1 imm) c
    = stores c rd (Z.shiftr a (imm mod 32)).
Proof.
  intros a b. unfold stores.
  rewrite <- !land_31_mod_32.
  repeat split; reflexivity.
Qed.

(** C5. The distance applied by [sll], [srl], [sra], [slli], [srli] and
    [srai] is the value of the source register, or the immediate, modulo 32:
    each handler stores the shift of the first operand by that distance.  A
    distance of 33 stores what a distance of 1 stores, whatever value is
    shifted. *)
Theorem shift_distance_modulo_32 (c c' : State) (rd rs1 rs2 : reg) (imm : Z) :
  let a := Registers_get (regs c) rs1 in
  let b := Registers_get (regs c) rs2 in
  (Z.land b 31 = b mod 32 /\ Z.land imm 31 = imm mod 32) /\
  (run_instruction (ins_rrr "sll" rd rs1 rs2) c
     = stores c rd (to_signed (Z.shiftl (to_unsigned a) (b mod 32))) /\
   run_instruction (ins_rrr "srl" rd rs1 rs2) c
     = stores c rd (to_signed (Z.shiftr (to_unsigned a) (b mod 32))) /\
   run_instruction (ins_rrr "sra" rd rs1 rs2) c
     = stores c rd (Z.shiftr a (b mod 32)) /\
   run_instruction (ins_rri "slli" rd rs1 imm) c
     = stores c rd (to_signed (Z.shiftl (to_unsigned a) (imm mod 32))) /\
   run_instruction (ins_rri "srli" rd rs1 imm) c
     = stores c rd (to_signed (Z.shiftr (to_unsigned a) (imm mod 32))) /\
   run_instruction (ins_rri "srai" rd rs1 imm) c
     = stores c rd (Z.shiftr a (imm mod 32))) /\
  (run_instruction (ins_rri "slli" rd rs1 33) c
     = run_instruction (ins_rri "slli" rd rs1 1) c /\
   run_instruction (ins_rri "srli" rd rs1 33) c
     = run_instruction (ins_rri "srli" rd rs1 1) c /\
   run_instruction (ins_rri "srai" rd rs1 33) c
     = run_instruction (ins_rri "srai" rd rs1 1) c) /\
  (Registers_get (regs c') rs1 = a ->
   b = 33 -> Registers_get (regs c') rs2 = 1 ->
   forall n, In n ["sll"; "srl"; "sra"] ->
   exists v,
     run_instruction (ins_rrr n rd rs1 rs2) c = stores c rd v /\
     run_instruction (ins_rrr n rd rs1 rs2) c' = stores c' rd v).
Proof.
  intros a b.
  split; [split; apply land_31_mod_32|].
  split; [apply shift_handlers|].
  split; [repeat split; reflexivity|].
  intros Ha Hb Hb' n Hn.
  destruct (shift_handlers c rd rs1 rs2 0) as (Esll & Esrl & Esra & _).
  destruct (shift_handlers c' rd rs1 rs2 0) as (Esll' & Esrl' & Esra' & _).
  fold a in Esll, Esrl, Esra. fold b in Esll, Esrl, Esra.
  rewrite Ha, Hb' in Esll', Esrl', Esra'.
  rewrite Hb in Esll, Esrl, Esra.
  change (33 mod 32) with 1 in Esll, Esrl, Esra.
  change (1 mod 32) with 1 in Esll', Esrl', Esra'.
  simpl in Hn.
  destruct Hn as [<-|[<-|[<-|[]]]]; eexists; split; eassumption.
Qed.

(** ** Signed and unsigned readings of a word *)

Lemma to_unsigned_range (a : Z) : 0 <= to_unsigned a < 2 ^ 32.
Proof. unfold to_unsigned, XLEN. apply Z.mod_pos_bound. lia. Qed.

Lemma to_signed_int32 (x : Z) : int32 (to_signed x).
Proof.
  unfold to_signed, int32, XLEN.
  pose proof (Z.mod_pos_bound x (2 ^ 32) ltac:(lia)) as Hx.
  change (32 - 1) with 31.
  destruct (Z.ltb_spec (x mod 2 ^ 32) (2 ^ 31)); lia.
Qed.

Lemma to_signed_small (x : Z) : 0 <= x < 2 ^ 31 -> to_signed x = x.
Proof.
  intros Hx. unfold to_signed, XLEN. change (32 - 1) with 31.
  rewrite Z.mod_small by lia.
  destruct (Z.ltb_spec x (2 ^ 31)); lia.
Qed.

Lemma to_unsigned_to_signed (x : Z) : to_unsigned (to_signed x) = x mod 2 ^ 32.
Proof.
  unfold to_unsigned, to_signed, XLEN. change (32 - 1) with 31.
  destruct (Z.ltb_spec (x mod 2 ^ 32) (2 ^ 31)).
  - apply Z.mod_mod. lia.
  - replace (x mod 2 ^ 32 - 2 ^ 32) with (x mod 2 ^ 32 + (-1) * 2 ^ 32) by lia.
    rewrite Z.mod_add by lia. apply Z.mod_mod. lia.
Qed.

Lemma testbit_to_unsigned (a i : Z) :
  0 <= i ->
  Z.testbit (to_unsigned a) i = if i <? 32 then Z.testbit a i else false.
Proof.
  intros Hi. unfold to_unsigned, XLEN.
  destruct (Z.ltb_spec i 32).
  - apply Z.mod_pow2_bits_low. lia.
  - apply Z.mod_pow2_bits_high. lia.
Qed.

Lemma testbit_to_signed (x i : Z) :
  0 <= i < 32 -> Z.testbit (to_signed x) i = Z.testbit x i.
Proof.
  intros Hi.
  rewrite <- (Z.mod_pow2_bits_low (to_signed x) 32 i) by lia.
  change (to_signed x mod 2 ^ 32) with (to_unsigned (to_signed x)).
  rewrite to_unsigned_to_signed.
  apply Z.mod_pow2_bits_low. lia.
Qed.

(** In a signed word every bit from position 31 on is the sign bit. *)
Lemma int32_sign_bits (a j : Z) :
  int32 a -> 31 <= j -> Z.testbit a j = (a <? 0).
Proof.
  unfold int32. intros Ha Hj.
  destruct (Z.ltb_spec a 0) as [Hneg|Hpos].
  - apply Z.bits_above_log2_neg; [lia|].
    destruct (Z.eq_dec (Z.pred (- a)) 0) as [E|E].
    + rewrite E. simpl. lia.
    + apply Z.lt_le_trans with 31; [|lia].
      apply Z.log2_lt_pow2; lia.
  - destruct (Z.eq_dec a 0) as [->|E].
    + apply Z.bits_0.
    + apply Z.bits_above_log2; [lia|].
      apply Z.lt_le_trans with 31; [|lia].
      apply Z.log2_lt_pow2; lia.
Qed.

Lemma srl_value_zero_filled (a k : Z) :
  0 <= k < 32 ->
  zero_filled_shift a k (to_signed (Z.shiftr (to_unsigned a) k)).
Proof.
  intros Hk.
  pose proof (to_unsigned_range a) as Hu.
  assert (Hp : 0 < 2 ^ k) by (apply Z.pow_pos_nonneg; lia).
  assert (Hs : 0 <= Z.shiftr (to_unsigned a) k < 2 ^ 32).
  { rewrite Z.shiftr_div_pow2 by lia. split.
    - apply Z.div_pos; lia.
    - apply Z.div_lt_upper_bound; nia. }
  repeat split.
  - apply to_signed_int32.
  - apply to_signed_int32.
  - rewrite to_unsigned_to_signed, Z.mod_small by exact Hs.
    apply Z.shiftr_div_pow2. lia.
  - intros i Hi.
    rewrite testbit_to_signed by exact Hi.
    rewrite Z.shiftr_spec by lia.
    rewrite testbit_to_unsigned by lia.
    reflexivity.
  - intros Hk1.
    assert (Hs' : Z.shiftr (to_unsigned a) k < 2 ^ 31).
    { rewrite Z.shiftr_div_pow2 by lia.
      apply Z.div_lt_upper_bound; [lia|].
      assert (2 ^ 1 <= 2 ^ k) by (apply Z.pow_le_mono_r; lia).
      nia. }
    rewrite to_signed_small; lia.
Qed.

Lemma sra_value_sign_filled (a k : Z) :
  int32 a -> 0 <= k < 32 -> sign_filled_shift a k (Z.shiftr a k).
Proof.
  intros Ha Hk.
  assert (Hp : 0 < 2 ^ k) by (apply Z.pow_pos_nonneg; lia).
  assert (Hp1 : 1 <= 2 ^ k) by lia.
  unfold int32 in Ha.
  unfold sign_filled_shift, int32.
  rewrite Z.shiftr_div_pow2 by lia.
  split; [|split; [|split]].
  - split.
    + apply Z.div_le_lower_bound; nia.
    + apply Z.div_lt_upper_bound; nia.
  - reflexivity.
  - intros i Hi.
    rewrite <- Z.shiftr_div_pow2 by lia.
    rewrite Z.shiftr_spec by lia.
    destruct (Z.ltb_spec (i + k) 32); [reflexivity|].
    rewrite !int32_sign_bits by (unfold int32; lia).
    reflexivity.
  - split; intros H.
    + apply Z.div_lt_upper_bound; lia.
    + destruct (Z.lt_ge_cases a 0) as [|Hge]; [assumption|].
      pose proof (Z.div_pos a (2 ^ k) Hge Hp). lia.
Qed.

(** C6. On a 32-bit register value, [srl] and [srli] shift the unsigned
    reading and fill the vacated high bits with 0, storing the result as a
    signed word (non-negative as soon as the distance is at least 1);
    [sra] and [srai] shift the signed value and fill with the sign bit, so
    that the result keeps the sign.  For the word whose only set bit is the
    sign bit and a distance of 1 the two results are [2 ^ 30] and
    [- 2 ^ 30]. *)
Theorem srl_zero_fills_sra_sign_fills
  (c : State) (rd rs1 rs2 : reg) (imm : Z) :
  let a := Registers_get (regs c) rs1 in
  let b := Registers_get (regs c) rs2 in
  int32 a ->
  (exists v, run_instruction (ins_rrr "srl" rd rs1 rs2) c = stores c rd v /\
             zero_filled_shift a (b mod 32) v) /\
  (exists v, run_instruction (ins_rri "srli" rd rs1 imm) c = stores c rd v /\
             zero_filled_shift a (imm mod 32) v) /\
  (exists w, run_instruction (ins_rrr "sra" rd rs1 rs2) c = stores c rd w /\
             sign_filled_shift a (b mod 32) w) /\
  (exists w, run_instruction (ins_rri "srai" rd rs1 imm) c = stores c rd w /\
             sign_filled_shift a (imm mod 32) w) /\
  (a = - 2 ^ 31 -> imm = 1 ->
   run_instruction (ins_rri "srli" rd rs1 imm) c = stores c rd (2 ^ 30) /\
   run_instruction (ins_rri "srai" rd rs1 imm) c = stores c rd (- 2 ^ 30)).
Proof.
  intros a b Ha.
  assert (Hb : 0 <= b mod 32 < 32) by (apply Z.mod_pos_bound; lia).
  assert (Hi : 0 <= imm mod 32 < 32) by (apply Z.mod_pos_bound; lia).
  destruct (shift_handlers c rd rs1 rs2 imm)
    as (_ & Esrl & Esra & _ & Esrli & Esrai).
  fold a in Esrl, Esra, Esrli, Esrai. fold b in Esrl, Esra.
  split; [|split; [|split; [|split]]].
  - eexists; split; [exact Esrl|]. apply srl_value_zero_filled; assumption.
  - eexists; split; [exact Esrli|]. apply srl_value_zero_filled; assumption.
  - eexists; split; [exact Esra|]. apply sra_value_sign_filled; assumption.
  - eexists; split; [exact Esrai|]. apply sra_value_sign_filled; assumption.
  - intros Emin Eone. rewrite Esrli, Esrai, Emin, Eone. split; reflexivity.
Qed.

(** ** Addition and subtraction *)

Lemma Registers_get_set_same (rs : Registers) (r : reg) (v : Z) :
  Registers_get (Registers_set rs r v) r = v.
Proof. unfold Registers_get, Registers_set. rewrite String.eqb_refl. reflexivity. Qed.

(** C2, as the code has it.  [add], [addi] and [sub] store the exact sum or
    difference of Python's unbounded integers: nothing wraps it to 32 bits.
    With [0x7FFFFFFF] and [1] the destination register holds [2147483648]
    afterwards, a value outside the signed 32-bit range, where the
    wraparound result is [- 2147483648]. *)
Theorem add_sub_store_unbounded_result (c : State) (rd rs1 rs2 : reg) (imm : Z) :
  let a := Registers_get (regs c) rs1 in
  let b := Registers_get (regs c) rs2 in
  (run_instruction (ins_rrr "add" rd rs1 rs2) c = stores c rd (a + b) /\
   run_instruction (ins_rri "addi" rd rs1 imm) c = stores c rd (a + imm) /\
   run_instruction (ins_rrr "sub" rd rs1 rs2) c = stores c rd (a - b)) /\
  let c0 := with_regs c (Example.regs_a0_a1 2147483647 1) in
  let after_add := snd (run_instruction (ins_rrr "add" "a2" "a0" "a1") c0) in
  let after_addi := snd (run_instruction (ins_rri "addi" "a2" "a0" 1) c0) in
  Registers_get (regs after_add) "a2" = 2147483648 /\
  Registers_get (regs after_addi) "a2" = 2147483648 /\
  ~ int32 2147483648 /\
  to_signed (2147483647 + 1) = - 2147483648.
Proof.
  intros a b.
  split; [repeat split; reflexivity|].
  repeat split; try reflexivity.
  unfold int32. lia.
Qed.

(** ** Jump and link *)

(** C3. When the instruction fetched at pc is [jal] with a single
    immediate operand, one pass of the loop writes the advanced pc, the
    address of the instruction after the jump, into [ra] and then sets pc to
    the target; a [ret] executed while [ra] still holds that value sets pc
    to exactly the advanced pc. *)
Theorem jal_links_advanced_pc_ret_restores (c : State) (target : Z) :
  MMU_read_ins (mmu c) (pc c) = Ok (mkIns "jal" [OImm target]) ->
  let fetched := with_pc (with_cycle c (cycle c + 1)) (pc c + 1) in
  step c = (Ok tt, with_pc (with_regs fetched
                              (Registers_set (regs c) "ra" (pc c + 1)))
                           target) /\
  Registers_get (regs (snd (step c))) "ra" = pc c + 1 /\
  pc (snd (step c)) = target /\
  forall c2 : State,
    Registers_get (regs c2) "ra" = Registers_get (regs (snd (step c))) "ra" ->
    run_instruction (mkIns "ret" []) c2 = (Ok tt, with_pc c2 (pc c + 1)).
Proof.
  intros Hfetch fetched.
  assert (E : step c = (Ok tt, with_pc (with_regs fetched
                 (Registers_set (regs c) "ra" (pc c + 1))) target)).
  { unfold step. cbn [mmu pc with_cycle]. rewrite Hfetch. reflexivity. }
  rewrite E. cbn [snd regs pc with_pc with_regs].
  rewrite Registers_get_set_same.
  repeat split.
  intros c2 Hra.
  unfold run_instruction. cbn.
  rewrite Hra. reflexivity.
Qed.

(** ** Branches *)

(** The branches that compare the stored values: pc becomes the target
    when the comparison holds and the engine is left as it was when it does
    not. *)
Lemma signed_branches (c : State) (rs1 rs2 : reg) (target : Z) :
  let a := Registers_get (regs c) rs1 in
  let b := Registers_get (regs c) rs2 in
  run_instruction (ins_branch "beq" rs1 rs2 target) c
    = (Ok tt, if a =? b then with_pc c target else c) /\
  run_instruction (ins_branch "bne" rs1 rs2 target) c
    = (Ok tt, if a =? b then c else with_pc c target) /\
  run_instruction (ins_branch "blt" rs1 rs2 target) c
    = (Ok tt, if a <? b then with_pc c target else c) /\
  run_instruction (ins_branch "bge" rs1 rs2 target) c
    = (Ok tt, if a >=? b then with_pc c target else c).
Proof.
  intros a b. unfold run_instruction, ins_branch. cbn.
  fold a b.
  repeat split.
  - destruct (a =? b); reflexivity.
  - destruct (a =? b); reflexivity.
  - destruct (a <? b); reflexivity.
  - destruct (a >=? b); reflexivity.
Qed.

(** What [bltu] and [bgeu] do: the references returned by
    [to_unsigned] name the registers that are read, and the values read
    are compared as they are stored. *)
Lemma unsigned_branch_handlers (c : State) (rs1 rs2 : reg) (target : Z) :
  run_instruction (ins_branch "bltu" rs1 rs2 target) c
    = match to_unsigned_ref rs1, to_unsigned_ref rs2 with
      | Ok reg1, Ok reg2 =>
          (Ok tt,
           if Registers_get (regs c) reg1 <? Registers_get (regs c) reg2
           then with_pc c target else c)
      | Ok _, Raise ex => (Raise ex, c)
      | Raise ex, _ => (Raise ex, c)
      end /\
  run_instruction (ins_branch "bgeu" rs1 rs2 target) c
    = match to_unsigned_ref rs1, to_unsigned_ref rs2 with
      | Ok reg1, Ok reg2 =>
          (Ok tt,
           if Registers_get (regs c) reg1 >=? Registers_get (regs c) reg2
           then with_pc c target else c)
      | Ok _, Raise ex => (Raise ex, c)
      | Raise ex, _ => (Raise ex, c)
      end.
Proof.
  unfold run_instruction, ins_branch. cbn.
  destruct (to_unsigned_ref rs1) as [reg1|ex]; [|split; reflexivity].
  destruct (to_unsigned_ref rs2) as [reg2|ex]; [|split; reflexivity].
  split.
  - destruct (_ <? _); reflexivity.
  - destruct (_ >=? _); reflexivity.
Qed.

Lemma regs_a0_a1_get (x y : Z) (r : reg) :
  Registers_get (Example.regs_a0_a1 x y) r
  = if String.eqb "a1" r then y else if String.eqb "a0" r then x else 0.
Proof. reflexivity. Qed.

Lemma pc_after_bltu (rs : Registers) (c : State) :
  pc_after_branch "bltu" rs c
  = match to_unsigned_ref "a0", to_unsigned_ref "a1" with
    | Ok reg1, Ok reg2 =>
        if Registers_get rs reg1 <? Registers_get rs reg2 then 100 else 5
    | _, _ => 5
    end.
Proof.
  unfold pc_after_branch.
  destruct (unsigned_branch_handlers (with_pc (with_regs c rs) 5) "a0" "a1" 100)
    as [-> _].
  destruct (to_unsigned_ref "a0") as [reg1|ex]; [|reflexivity].
  destruct (to_unsigned_ref "a1") as [reg2|ex]; [|reflexivity].
  cbn [regs with_pc with_regs].
  destruct (_ <? _); reflexivity.
Qed.

Lemma pc_after_bgeu (rs : Registers) (c : State) :
  pc_after_branch "bgeu" rs c
  = match to_unsigned_ref "a0", to_unsigned_ref "a1" with
    | Ok reg1, Ok reg2 =>
        if Registers_get rs reg1 >=? Registers_get rs reg2 then 100 else 5
    | _, _ => 5
    end.
Proof.
  unfold pc_after_branch.
  destruct (unsigned_branch_handlers (with_pc (with_regs c rs) 5) "a0" "a1" 100)
    as [_ ->].
  destruct (to_unsigned_ref "a0") as [reg1|ex]; [|reflexivity].
  destruct (to_unsigned_ref "a1") as [reg2|ex]; [|reflexivity].
  cbn [regs with_pc with_regs].
  destruct (_ >=? _); reflexivity.
Qed.

(** Whatever [to_unsigned] returns for a register reference, [bltu] misses
    a branch it has to take: unsigned [0 < 1] and [0 < 0xFFFFFFFF] both
    hold. *)
Lemma bltu_diverges (c : State) :
  pc_after_branch "bltu" (Example.regs_a0_a1 0 1) c <> 100 \/
  pc_after_branch "bltu" (Example.regs_a0_a1 0 (- 1)) c <> 100.
Proof.
  rewrite !pc_after_bltu.
  destruct (to_unsigned_ref "a0") as [reg1|ex]; [|left; lia].
  destruct (to_unsigned_ref "a1") as [reg2|ex]; [|left; lia].
  rewrite !regs_a0_a1_get.
  destruct (String.eqb "a1" reg1), (String.eqb "a0" reg1),
           (String.eqb "a1" reg2), (String.eqb "a0" reg2);
    cbn; first [left; lia | right; lia].
Qed.

(** Whatever [to_unsigned] returns for a register reference, [bgeu] misses
    a branch it has to take (unsigned [1 >= 0]) or takes one it must not
    (unsigned [0 >= 1] and [0 >= 0xFFFFFFFF] both fail). *)
Lemma bgeu_diverges (c : State) :
  pc_after_branch "bgeu" (Example.regs_a0_a1 1 0) c <> 100 \/
  pc_after_branch "bgeu" (Example.regs_a0_a1 0 1) c = 100 \/
  pc_after_branch "bgeu" (Example.regs_a0_a1 0 (- 1)) c = 100.
Proof.
  rewrite !pc_after_bgeu.
  destruct (to_unsigned_ref "a0") as [reg1|ex]; [|left; lia].
  destruct (to_unsigned_ref "a1") as [reg2|ex]; [|left; lia].
  rewrite !regs_a0_a1_get.
  destruct (String.eqb "a1" reg1), (String.eqb "a0" reg1),
           (String.eqb "a1" reg2), (String.eqb "a0" reg2);
    cbn; first [left; lia | right; left; reflexivity | right; right; reflexivity].
Qed.

(** C1, as the code has it.  [bltu] and [bgeu] apply [to_unsigned] to the
    register references and compare the values of the registers as they
    are stored: the values are not coerced.  Whatever the coercion of a
    reference returns, pc is not set to the target exactly when the
    unsigned comparison holds: [bltu] leaves pc at 5 for [0 <u 1] or for
    [0 <u 0xFFFFFFFF]; [bgeu] leaves pc at 5 for [1 >=u 0], or sets it to
    100 for [0 >=u 1] or for [0 >=u 0xFFFFFFFF]. *)
Theorem bltu_bgeu_coerce_register_references (c : State) :
  (ltu 0 1 = true /\ ltu 0 (- 1) = true /\
   geu 1 0 = true /\ geu 0 1 = false /\ geu 0 (- 1) = false) /\
  (pc_after_branch "bltu" (Example.regs_a0_a1 0 1) c <> 100 \/
   pc_after_branch "bltu" (Example.regs_a0_a1 0 (- 1)) c <> 100) /\
  (pc_after_branch "bgeu" (Example.regs_a0_a1 1 0) c <> 100 \/
   pc_after_branch "bgeu" (Example.regs_a0_a1 0 1) c = 100 \/
   pc_after_branch "bgeu" (Example.regs_a0_a1 0 (- 1)) c = 100).
Proof.
  split; [repeat split; reflexivity|].
  split; [apply bltu_diverges|apply bgeu_diverges].
Qed.

Lemma pc_after_branch_as_specified
  (n : string) (cond : Z -> Z -> bool) (x y : Z) (c : State) :
  branch_as_specified n cond ->
  pc_after_branch n (Example.regs_a0_a1 x y) c = if cond x y then 100 else 5.
Proof.
  intros H. unfold pc_after_branch. rewrite H.
  cbn [regs with_regs with_pc]. rewrite !regs_a0_a1_get. cbn [String.eqb Ascii.eqb Bool.eqb].
  destruct (cond x y); reflexivity.
Qed.

(** C7, as the code has it.  [beq], [bne], [blt] and [bge] behave as
    specified: pc is exactly the target when the condition holds, and the
    engine, pc included, is as it was when the condition fails.  [bltu] and
    [bgeu] do not, for their unsigned conditions. *)
Theorem branches_as_specified_but_unsigned (c : State) :
  branch_as_specified "beq" Z.eqb /\
  branch_as_specified "bne" (fun a b => negb (a =? b)) /\
  branch_as_specified "blt" Z.ltb /\
  branch_as_specified "bge" Z.geb /\
  ~ branch_as_specified "bltu" ltu /\
  ~ branch_as_specified "bgeu" geu.
Proof.
  split; [|split; [|split; [|split; [|split]]]].
  - intros c1 rs1 rs2 target.
    destruct (signed_branches c1 rs1 rs2 target) as (E & _). exact E.
  - intros c1 rs1 rs2 target.
    destruct (signed_branches c1 rs1 rs2 target) as (_ & E & _).
    rewrite E. destruct (_ =? _); reflexivity.
  - intros c1 rs1 rs2 target.
    destruct (signed_branches c1 rs1 rs2 target) as (_ & _ & E & _). exact E.
  - intros c1 rs1 rs2 target.
    destruct (signed_branches c1 rs1 rs2 target) as (_ & _ & _ & E). exact E.
  - intros H.
    destruct (bltu_diverges c) as [D|D]; apply D;
      rewrite (pc_after_branch_as_specified "bltu" ltu _ _ c H); reflexivity.
  - intros H.
    destruct (bgeu_diverges c) as [D|[D|D]];
      rewrite (pc_after_branch_as_specified "bgeu" geu _ _ c H) in D;
      [apply D; reflexivity | discriminate D | discriminate D].
Qed.


(** ** Dispatch *)

Lemma getattr_instruction_None table (n : string) :
  ~ In n (map fst table) -> getattr_instruction table n = None.
Proof.
  induction table as [|[m h] table IH]; intros Hn; [reflexivity|].
  simpl in *.
  destruct (String.eqb_spec m n) as [E|_].
  - exfalso. apply Hn. left. exact E.
  - apply IH. intros Hin. apply Hn. right. exact Hin.
Qed.



(** C8. Dispatching an instruction whose mnemonic is [lui], [auipc],
    [xori], [ori], [andi], [slti] or [sltiu] raises the
    unimplemented-instruction fault for that instruction, a fault of the
    family the loop catches and of no other kind of that family; the
    handler never returns, and it leaves the engine, its registers
    included, as it was. *)
Theorem unimplemented_raise_fault (ins : LoadedInstruction) (c : State) :
  In (name ins) unimplemented ->
  run_instruction ins c = (Raise (UnimplementedInstruction ins), c) /\
  is_RiscemuBaseException (UnimplementedInstruction ins) = true /\
  (forall msg, UnimplementedInstruction ins <> MemoryFault msg /\
               UnimplementedInstruction ins <> MalformedInstruction msg /\
               UnimplementedInstruction ins <> SyscallFault msg) /\
  (forall c', run_instruction ins c <> (Ok tt, c')).
Proof.
  destruct ins as [n a]. unfold unimplemented. simpl.
  intros Hn.
  assert (E : run_instruction (mkIns n a) c
              = (Raise (UnimplementedInstruction (mkIns n a)), c)).
  { repeat (destruct Hn as [<-|Hn]; [reflexivity|]). contradiction. }
  split; [exact E|].
  split; [reflexivity|].
  split.
  - intros msg. repeat split; discriminate.
  - intros c'. rewrite E. discriminate.
Qed.

(** ** The program counter of straight-line instructions *)

Lemma preserves_pc_ret {A : Type} (a : A) : preserves_pc (ret a).
Proof. intros c. reflexivity. Qed.

Lemma preserves_pc_pure {A : Type} (r : res A) : preserves_pc (pure r).
Proof. intros c. reflexivity. Qed.

Lemma preserves_pc_bind {A B : Type} (m : Py A) (k : A -> Py B) :
  preserves_pc m -> (forall a, preserves_pc (k a)) -> preserves_pc (bind m k).
Proof.
  intros Hm Hk c. unfold bind.
  specialize (Hm c).
  destruct (m c) as [[a|ex] c1]; simpl in *.
  - rewrite Hk. exact Hm.
  - exact Hm.
Qed.

Lemma preserves_pc_regs_get (r : reg) : preserves_pc (regs_get r).
Proof. intros c. reflexivity. Qed.

Lemma preserves_pc_regs_set (r : reg) (v : Z) : preserves_pc (regs_set r v).
Proof. intros c. reflexivity. Qed.

Lemma preserves_pc_mmu_read (addr size : Z) : preserves_pc (mmu_read addr size).
Proof. intros c. reflexivity. Qed.

Lemma preserves_pc_mmu_write (addr size : Z) (data : list Byte.byte) :
  preserves_pc (mmu_write addr size data).
Proof.
  intros c. unfold mmu_write.
  destruct (MMU_write (mmu c) addr size data). reflexivity.
Qed.

Ltac preserves_pc_step :=
  first
    [ apply preserves_pc_ret
    | apply preserves_pc_pure
    | apply preserves_pc_regs_get
    | apply preserves_pc_regs_set
    | apply preserves_pc_mmu_read
    | apply preserves_pc_mmu_write
    | apply preserves_pc_bind; [|intros]
    | match goal with
      | |- preserves_pc (if ?b then _ else _) => destruct b
      end ].

Lemma preserves_pc_parse_mem_ins (ins : LoadedInstruction) :
  preserves_pc (parse_mem_ins ins).
Proof. unfold parse_mem_ins. repeat preserves_pc_step. Qed.

Ltac preserves_pc_handler h :=
  unfold h;
  repeat first [apply preserves_pc_parse_mem_ins | preserves_pc_step].

(** The loads and stores leave pc as it was, whether they return or
    raise. *)
Lemma preserves_pc_memory (ins : LoadedInstruction) (c : State) :
  In (name ins) ["lb"; "lh"; "lw"; "lbu"; "lhu"; "sb"; "sh"; "sw"] ->
  pc (snd (run_instruction ins c)) = pc c.
Proof.
  destruct ins as [n a]. simpl.
  intros Hn.
  repeat (destruct Hn as [<-|Hn];
    [ unfold run_instruction;
      cbv [name getattr_instruction instructions String.eqb Ascii.eqb Bool.eqb];
      match goal with
      | |- pc (snd (?h ?i ?c)) = pc ?c =>
          revert c; change (preserves_pc (h i)); preserves_pc_handler h
      end
    | ]).
  contradiction.
Qed.

(** C10. The handlers of the implemented arithmetic, logic, shift and
    comparison instructions, of the loads and stores and of [nop] leave pc
    as it was after the fetch advance, whatever the operands are and
    whether the handler returns or raises. *)
Theorem straight_line_preserves_pc (ins : LoadedInstruction) (c : State) :
  In (name ins) straight_line ->
  pc (snd (run_instruction ins c)) = pc c.
Proof.
  destruct ins as [n a]. unfold straight_line. simpl.
  intros Hn.
  repeat (destruct Hn as [<-|Hn];
    [ unfold run_instruction;
      cbv [name getattr_instruction instructions String.eqb Ascii.eqb Bool.eqb];
      match goal with
      | |- pc (snd (?h ?i ?c)) = pc ?c =>
          revert c; change (preserves_pc (h i)); preserves_pc_handler h
      end
    | ]).
  contradiction.
Qed.

(** ** The dispatch loop *)

(** The loop after [n] quiet passes goes on as the loop entered in the
    state these passes reach. *)
Lemma run_loop_after_passes (n m : nat) :
  forall (last last' : option LoadedInstruction) (c c' : State),
    after_passes n last c = Some (last', c') ->
    run_loop (n + m) last c = run_loop m last' c'.
Proof.
  induction n as [|n IH]; intros last last' c c' Hn.
  - simpl in Hn. injection Hn as <- <-. reflexivity.
  - simpl in Hn. simpl.
    destruct (exit c); [discriminate|].
    destruct (MMU_read_ins (mmu c) (pc c)) as [i|ex]; [|discriminate].
    destruct (run_instruction i _) as [[[]|ex] c3]; [|discriminate].
    apply IH. exact Hn.
Qed.

Lemma run_loop_fuel (n fuel : nat)
  (last last' : option LoadedInstruction) (c c' : State) :
  after_passes n last c = Some (last', c') ->
  (n < fuel)%nat ->
  exists m, run_loop fuel last c = run_loop (S m) last' c'.
Proof.
  intros Hn Hlt.
  exists (fuel - n - 1)%nat.
  rewrite <- (run_loop_after_passes n (S (fuel - n - 1)) last last' c c' Hn).
  f_equal. lia.
Qed.

(** A pass whose fetch raises leaves the loop with the cycle counted, pc
    not advanced and the local [ins] still the instruction fetched by the
    pass before. *)
Lemma run_loop_fetch_raises (m : nat) (last : option LoadedInstruction)
  (c : State) (ex : exn) :
  exit c = false ->
  MMU_read_ins (mmu c) (pc c) = Raise ex ->
  run_loop (S m) last c = (LoopRaised ex, last, with_cycle c (cycle c + 1)).
Proof.
  intros Hexit Hfetch. simpl. rewrite Hexit, Hfetch. reflexivity.
Qed.

(** A pass whose instruction raises leaves the loop in the state the
    handler left, with the local [ins] the instruction that raised. *)
Lemma run_loop_instruction_raises (m : nat) (last : option LoadedInstruction)
  (c c3 : State) (ins : LoadedInstruction) (ex : exn) :
  exit c = false ->
  MMU_read_ins (mmu c) (pc c) = Ok ins ->
  run_instruction ins (with_pc (with_cycle c (cycle c + 1)) (pc c + 1))
    = (Raise ex, c3) ->
  run_loop (S m) last c = (LoopRaised ex, Some ins, c3).
Proof.
  intros Hexit Hfetch Hrun. simpl. rewrite Hexit, Hfetch.
  simpl in Hrun. rewrite Hrun. reflexivity.
Qed.

Lemma after_passes_pc_positive_run (fuel : nat) (c0 : State) :
  0 < pc c0 ->
  run fuel c0 =
  match run_loop fuel None c0 with
  | (LoopOutOfFuel, _, c') => (OutOfFuel, c')
  | (LoopExit, _, c') => (Returned None, print (PrintExited (exit_code c')) c')
  | (LoopRaised ex, ins, c') =>
      if is_RiscemuBaseException ex then
        let c1 := print (PrintExceptionCaught (pc c' - 1) ins) c' in
        let c2 := print (PrintMessage ex) c1 in
        if debug_on_exception (conf c2) then
          match launch_debug_session DebugExceptionEncountered c2 with
          | (Raise ex', c3) => (Propagated ex', c3)
          | (Ok _, c3) => (Returned None, print (PrintExited (exit_code c3)) c3)
          end
        else (Returned None, print (PrintExited (exit_code c2)) c2)
      else (Propagated ex, c')
  end.
Proof.
  intros Hpc. unfold run.
  destruct (Z.leb_spec (pc c0) 0); [lia|reflexivity].
Qed.

(** C9. Dispatching an instruction whose mnemonic has no handler raises
    [RuntimeError], which is not of the family the loop catches; when such
    an instruction is fetched in a run, the error leaves [__run]: nothing
    is printed, neither the report of a caught fault nor the exit code. *)
Theorem unknown_mnemonic_propagates (ins : LoadedInstruction) (c : State) :
  ~ In (name ins) all_instructions ->
  exists msg,
    run_instruction ins c = (Raise (RuntimeError msg ins), c) /\
    is_RiscemuBaseException (RuntimeError msg ins) = false /\
    forall (n fuel : nat) (c0 : State) (last : option LoadedInstruction),
      0 < pc c0 ->
      after_passes n None c0 = Some (last, c) ->
      exit c = false ->
      MMU_read_ins (mmu c) (pc c) = Ok ins ->
      (n < fuel)%nat ->
      run fuel c0 = (Propagated (RuntimeError msg ins),
                     with_pc (with_cycle c (cycle c + 1)) (pc c + 1)) /\
      stdout (snd (run fuel c0)) = stdout c.
Proof.
  intros Hname.
  exists "Unknown instruction".
  assert (E : forall c1 : State,
             run_instruction ins c1
             = (Raise (RuntimeError "Unknown instruction" ins), c1)).
  { intros c1. unfold run_instruction.
    rewrite (getattr_instruction_None instructions (name ins) Hname).
    reflexivity. }
  split; [apply E|].
  split; [reflexivity|].
  intros n fuel c0 last Hpc Hn Hexit Hfetch Hlt.
  destruct (run_loop_fuel n fuel None last c0 c Hn Hlt) as [m Hm].
  assert (R : run fuel c0 = (Propagated (RuntimeError "Unknown instruction" ins),
                             with_pc (with_cycle c (cycle c + 1)) (pc c + 1))).
  { rewrite (after_passes_pc_positive_run fuel c0 Hpc), Hm.
    rewrite (run_loop_instruction_raises m last c _ ins _ Hexit Hfetch (E _)).
    reflexivity. }
  rewrite R. split; reflexivity.
Qed.

(** What a run prints and how it ends when a fault of the catchable
    family is raised by an instruction and no debug session is
    configured: the report names [pc - 1] and the instruction; the run
    returns after printing the exit code. *)
Lemma run_catches_instruction_fault
  (n fuel : nat) (c0 c c3 : State) (last : option LoadedInstruction)
  (ins : LoadedInstruction) (ex : exn) :
  0 < pc c0 ->
  after_passes n None c0 = Some (last, c) ->
  exit c = false ->
  MMU_read_ins (mmu c) (pc c) = Ok ins ->
  run_instruction ins (with_pc (with_cycle c (cycle c + 1)) (pc c + 1))
    = (Raise ex, c3) ->
  is_RiscemuBaseException ex = true ->
  debug_on_exception (conf c3) = false ->
  (n < fuel)%nat ->
  fst (run fuel c0) = Returned None /\
  stdout (snd (run fuel c0))
    = (stdout c3 ++ [PrintExceptionCaught (pc c3 - 1) (Some ins);
                     PrintMessage ex; PrintExited (exit_code c3)])%list.
Proof.
  intros Hpc Hn Hexit Hfetch Hrun Hex Hdebug Hlt.
  destruct (run_loop_fuel n fuel None last c0 c Hn Hlt) as [m Hm].
  rewrite (after_passes_pc_positive_run fuel c0 Hpc), Hm.
  rewrite (run_loop_instruction_raises m last c c3 ins ex Hexit Hfetch Hrun).
  rewrite Hex. cbn [print conf]. rewrite Hdebug.
  split; [reflexivity|].
  cbn [snd print stdout]. rewrite <- !app_assoc. reflexivity.
Qed.

(** A fault raised by the memory access of a load or store is reported
    with the address of that instruction: its handler leaves pc at the
    advanced value. *)
Lemma memory_instruction_fault_reported_at_its_pc
  (n fuel : nat) (c0 c c3 : State) (last : option LoadedInstruction)
  (ins : LoadedInstruction) (msg : string) :
  0 < pc c0 ->
  after_passes n None c0 = Some (last, c) ->
  exit c = false ->
  MMU_read_ins (mmu c) (pc c) = Ok ins ->
  In (name ins) ["lb"; "lh"; "lw"; "lbu"; "lhu"; "sb"; "sh"; "sw"] ->
  run_instruction ins (with_pc (with_cycle c (cycle c + 1)) (pc c + 1))
    = (Raise (MemoryFault msg), c3) ->
  debug_on_exception (conf c3) = false ->
  (n < fuel)%nat ->
  fst (run fuel c0) = Returned None /\
  stdout (snd (run fuel c0))
    = (stdout c3 ++ [PrintExceptionCaught (pc c) (Some ins);
                     PrintMessage (MemoryFault msg);
                     PrintExited (exit_code c3)])%list.
Proof.
  intros Hpc Hn Hexit Hfetch Hname Hrun Hdebug Hlt.
  assert (Hpc3 : pc c3 - 1 = pc c).
  { pose proof (preserves_pc_memory ins
                  (with_pc (with_cycle c (cycle c + 1)) (pc c + 1)) Hname) as P.
    rewrite Hrun in P. simpl in P. lia. }
  rewrite <- Hpc3.
  apply (run_catches_instruction_fault n fuel c0 c c3 last ins (MemoryFault msg));
    auto.
Qed.

(** What a run does once its loop is left by a fault of the catchable
    family: the fault does not leave [__run], which returns after printing
    the exit code the engine has at that time, provided the debug session,
    when one is configured, returns. *)
Lemma run_returns_after_caught_fault
  (fuel : nat) (c0 c' : State) (ins : option LoadedInstruction) (ex : exn) :
  0 < pc c0 ->
  run_loop fuel None c0 = (LoopRaised ex, ins, c') ->
  is_RiscemuBaseException ex = true ->
  (debug_on_exception (conf c') = true ->
   exists c3,
     launch_debug_session DebugExceptionEncountered
       (print (PrintMessage ex)
          (print (PrintExceptionCaught (pc c' - 1) ins) c')) = (Ok tt, c3)) ->
  exists cf, run fuel c0 = (Returned None, print (PrintExited (exit_code cf)) cf).
Proof.
  intros Hpc Hloop Hex Hdebug.
  rewrite (after_passes_pc_positive_run fuel c0 Hpc), Hloop, Hex.
  cbv zeta.
  replace (conf (print (PrintMessage ex)
                   (print (PrintExceptionCaught (pc c' - 1) ins) c')))
    with (conf c') by reflexivity.
  destruct (debug_on_exception (conf c')) eqn:Eflag.
  - destruct (Hdebug eq_refl) as [c3 E3].
    rewrite E3.
    exists c3. reflexivity.
  - eexists. reflexivity.
Qed.

(** C4, as the code has it.  A memory fault raised by the fetch is caught
    and the run returns after printing the exit code, but the report does
    not name the faulting pc and instruction: pc has not been advanced when
    the fetch raises, so the address printed, [pc - 1], is the one before
    the address whose fetch failed, and the instruction printed is the one
    fetched by the pass before, [None] in the first pass. *)
Theorem fetch_fault_reports_previous_instruction
  (n fuel : nat) (c0 c : State) (last : option LoadedInstruction) (msg : string) :
  0 < pc c0 ->
  after_passes n None c0 = Some (last, c) ->
  exit c = false ->
  MMU_read_ins (mmu c) (pc c) = Raise (MemoryFault msg) ->
  debug_on_exception (conf c) = false ->
  (n < fuel)%nat ->
  fst (run fuel c0) = Returned None /\
  stdout (snd (run fuel c0))
    = (stdout c ++ [PrintExceptionCaught (pc c - 1) last;
                    PrintMessage (MemoryFault msg);
                    PrintExited (exit_code c)])%list /\
  pc c - 1 <> pc c /\
  (n = 0%nat -> last = None).
Proof.
  intros Hpc Hn Hexit Hfetch Hdebug Hlt.
  destruct (run_loop_fuel n fuel None last c0 c Hn Hlt) as [m Hm].
  rewrite (after_passes_pc_positive_run fuel c0 Hpc), Hm.
  rewrite (run_loop_fetch_raises m last c _ Hexit Hfetch).
  cbn [is_RiscemuBaseException print conf with_cycle]. rewrite Hdebug.
  split; [reflexivity|].
  split; [simpl; rewrite <- !app_assoc; reflexivity|].
  split; [lia|].
  intros ->. simpl in Hn. injection Hn as <- _. reflexivity.
Qed.

(** ** Frames: what each class of instructions can change *)

Lemma respects_ret (R : State -> State -> Prop) {A : Type} (a : A) :
  (forall c, R c c) -> respects R (ret a).
Proof. intros Hrefl c. apply Hrefl. Qed.

Lemma respects_pure (R : State -> State -> Prop) {A : Type} (r : res A) :
  (forall c, R c c) -> respects R (pure r).
Proof. intros Hrefl c. apply Hrefl. Qed.

Lemma respects_regs_get (R : State -> State -> Prop) (r : reg) :
  (forall c, R c c) -> respects R (regs_get r).
Proof. intros Hrefl c. apply Hrefl. Qed.

Lemma respects_get_pc (R : State -> State -> Prop) :
  (forall c, R c c) -> respects R get_pc.
Proof. intros Hrefl c. apply Hrefl. Qed.

Lemma respects_mmu_read (R : State -> State -> Prop) (addr size : Z) :
  (forall c, R c c) -> respects R (mmu_read addr size).
Proof. intros Hrefl c. apply Hrefl. Qed.

Lemma respects_regs_set (R : State -> State -> Prop) (r : reg) (v : Z) :
  (forall c rs, R c (with_regs c rs)) -> respects R (regs_set r v).
Proof. intros H c. apply H. Qed.

Lemma respects_set_pc (R : State -> State -> Prop) (v : Z) :
  (forall c v', R c (with_pc c v')) -> respects R (set_pc v).
Proof. intros H c. apply H. Qed.

Lemma respects_mmu_write (R : State -> State -> Prop)
  (addr size : Z) (data : list Byte.byte) :
  (forall c m, R c (with_mmu c m)) -> respects R (mmu_write addr size data).
Proof.
  intros H c. unfold mmu_write.
  destruct (MMU_write (mmu c) addr size data). apply H.
Qed.

Lemma respects_bind (R : State -> State -> Prop) {A B : Type}
  (m : Py A) (k : A -> Py B) :
  (forall c1 c2 c3, R c1 c2 -> R c2 c3 -> R c1 c3) ->
  respects R m -> (forall a, respects R (k a)) -> respects R (bind m k).
Proof.
  intros Htrans Hm Hk c. unfold bind.
  specialize (Hm c).
  destruct (m c) as [[a|ex] c1]; simpl in *.
  - apply (Htrans c c1); [exact Hm|apply Hk].
  - exact Hm.
Qed.

Ltac respects_step :=
  first
    [ apply respects_ret; assumption
    | apply respects_pure; assumption
    | apply respects_regs_get; assumption
    | apply respects_get_pc; assumption
    | apply respects_mmu_read; assumption
    | apply respects_regs_set; assumption
    | apply respects_set_pc; assumption
    | apply respects_mmu_write; assumption
    | apply respects_bind; [assumption| |intros]
    | match goal with
      | |- respects _ (if ?b then _ else _) => destruct b
      end ].

Ltac respects_handler h :=
  unfold h; try unfold parse_mem_ins; repeat respects_step.

(** Dispatch of a mnemonic of the table, one case per handler. *)
Ltac dispatch_cases Hn tac :=
  repeat (destruct Hn as [<-|Hn];
    [ unfold run_instruction;
      cbv [name getattr_instruction instructions String.eqb Ascii.eqb Bool.eqb];
      match goal with
      | |- ?R ?c (snd (?h ?i ?c)) =>
          revert c; change (respects R (h i)); tac h
      end
    | ]);
  try contradiction.

Lemma only_mmu_refl (c : State) : only_mmu c c.
Proof. exists (mmu c). destruct c. reflexivity. Qed.

Lemma only_mmu_trans (c1 c2 c3 : State) :
  only_mmu c1 c2 -> only_mmu c2 c3 -> only_mmu c1 c3.
Proof. intros [m ->] [m' ->]. exists m'. reflexivity. Qed.

Lemma only_pc_refl (c : State) : only_pc c c.
Proof. exists (pc c). destruct c. reflexivity. Qed.

Lemma only_pc_trans (c1 c2 c3 : State) :
  only_pc c1 c2 -> only_pc c2 c3 -> only_pc c1 c3.
Proof. intros [v ->] [v' ->]. exists v'. reflexivity. Qed.

Lemma same_control_refl (c : State) : same_control c c.
Proof. unfold same_control. repeat split. Qed.

Lemma same_control_trans (c1 c2 c3 : State) :
  same_control c1 c2 -> same_control c2 c3 -> same_control c1 c3.
Proof.
  unfold same_control.
  intros (A1 & A2 & A3 & A4 & A5 & A6) (B1 & B2 & B3 & B4 & B5 & B6).
  repeat split; congruence.
Qed.

(** X2. A store changes nothing but the memory, whatever its operands are
    and whether it returns or raises: no register, pc included, is
    written. *)
Theorem stores_change_memory_only (ins : LoadedInstruction) (c : State) :
  In (name ins) stores_to_memory ->
  only_mmu c (snd (run_instruction ins c)).
Proof.
  destruct ins as [n a]. unfold stores_to_memory. simpl.
  intros Hn.
  pose proof only_mmu_refl as Hrefl.
  pose proof only_mmu_trans as Htrans.
  assert (Hset : forall (c : State) m, only_mmu c (with_mmu c m))
    by (intros c0 m; exists m; reflexivity).
  dispatch_cases Hn respects_handler.
Qed.

(** X3. A branch, [j] and [ret] change nothing but pc, whatever their
    operands are and whether they return or raise. *)
Theorem pc_writers_change_pc_only (ins : LoadedInstruction) (c : State) :
  In (name ins) pc_writers ->
  only_pc c (snd (run_instruction ins c)).
Proof.
  destruct ins as [n a]. unfold pc_writers. simpl.
  intros Hn.
  pose proof only_pc_refl as Hrefl.
  pose proof only_pc_trans as Htrans.
  assert (Hset : forall (c : State) v, only_pc c (with_pc c v))
    by (intros c0 v; exists v; reflexivity).
  dispatch_cases Hn respects_handler.
Qed.

Lemma get_reg_Ok (ins : LoadedInstruction) (num : nat) (r : reg) :
  get_reg ins num = Ok r -> nth_error (args ins) num = Some (OReg r).
Proof.
  unfold get_reg.
  destruct (nth_error (args ins) num) as [[r'|imm|imm r']|]; intros E;
    try discriminate E.
  injection E as ->. reflexivity.
Qed.

Ltac split_matches :=
  repeat match goal with
  | |- context [match ?x with _ => _ end] => destruct x eqn:?
  end.

(** Address resolution reads the engine only, and the register it returns
    is the first operand. *)
Lemma parse_mem_ins_inv (ins : LoadedInstruction) (c : State) :
  exists r,
    parse_mem_ins ins c = (r, c) /\
    forall rd addr, r = Ok (rd, addr) ->
                    nth_error (args ins) 0 = Some (OReg rd).
Proof.
  unfold parse_mem_ins.
  match goal with
  | |- context [bind ?m _ c] =>
      assert (H1 : exists r1, m c = (r1, c))
  end.
  { destruct (Nat.eqb (length (args ins)) 3); cbv [bind pure ret].
    - destruct (get_reg ins 1); [destruct (get_imm ins 2)|];
        eexists; reflexivity.
    - destruct (ASSERT_LEN (args ins) 2);
        [destruct (ASSERT_IN_paren (args ins) 1);
         [destruct (get_imm_reg ins 1)|]|];
        eexists; reflexivity. }
  destruct H1 as [r1 E1].
  unfold bind at 1. rewrite E1.
  destruct r1 as [p|ex].
  - cbv [bind pure ret regs_get].
    destruct (get_reg ins 0) eqn:E0.
    + eexists; split; [reflexivity|].
      intros rd addr E. injection E as <- _. apply get_reg_Ok; exact E0.
    + eexists; split; [reflexivity|]. discriminate.
  - eexists; split; [reflexivity|]. discriminate.
Qed.

Ltac destination_done :=
  cbv [snd fst];
  first
    [ left; reflexivity
    | right; do 2 eexists; split; [eassumption | reflexivity] ].

Ltac destination_handler h ins c :=
  first
    [ (* a load *)
      cbv [h bind]; cbv beta iota;
      let r := fresh "r" in
      let E := fresh "E" in
      let Hrd := fresh "Hrd" in
      destruct (parse_mem_ins_inv ins c) as (r & E & Hrd);
      rewrite E; cbv [pure mmu_read regs_set]; cbv beta iota;
      destruct r as [[? ?]|?];
      [ specialize (Hrd _ _ eq_refl) | ];
      split_matches; destination_done
    | (* arithmetic, logic, shift, comparison *)
      cbv [h bind pure ret regs_get regs_set]; cbv beta iota;
      split_matches;
      repeat match goal with
             | H : get_reg _ 0%nat = Ok _ |- _ => apply get_reg_Ok in H
             end;
      destination_done ].

(** X1. An implemented instruction with a destination register (arithmetic,
    logic, shift, comparison, load) leaves the engine as it was, or as it
    was but for one register, the one named by its first operand: no other
    register, and neither pc nor the memory, is written, whatever the
    operands are and whether the handler returns or raises. *)
Theorem register_writers_write_destination_only
  (ins : LoadedInstruction) (c : State) :
  In (name ins) register_writers ->
  writes_destination_only ins c (snd (run_instruction ins c)).
Proof.
  destruct ins as [n a]. unfold register_writers. simpl.
  intros Hn.
  repeat (destruct Hn as [<-|Hn];
    [ unfold run_instruction;
      cbv [name getattr_instruction instructions String.eqb Ascii.eqb Bool.eqb];
      match goal with
      | |- writes_destination_only ?i ?c (snd (?h _ _)) =>
          unfold writes_destination_only; destination_handler h i c
      end
    | ]).
  contradiction.
Qed.

(** Dispatching an instruction that is not a handoff keeps everything that
    controls the run. *)
Lemma dispatch_same_control (ins : LoadedInstruction) (c : State) :
  ~ In (name ins) handoff ->
  same_control c (snd (run_instruction ins c)).
Proof.
  destruct ins as [n a]. unfold handoff. simpl.
  intros Hnot.
  pose proof same_control_refl as Hrefl.
  pose proof same_control_trans as Htrans.
  assert (Hregs : forall (c : State) rs, same_control c (with_regs c rs))
    by (intros; unfold same_control; repeat split).
  assert (Hpc : forall (c : State) v, same_control c (with_pc c v))
    by (intros; unfold same_control; repeat split).
  assert (Hmmu : forall (c : State) m, same_control c (with_mmu c m))
    by (intros; unfold same_control; repeat split).
  destruct (in_dec string_dec n all_instructions) as [Hin|Hout].
  - unfold all_instructions, instructions in Hin. simpl in Hin.
    repeat (destruct Hin as [<-|Hin];
      [ first
          [ exfalso; apply Hnot; tauto
          | unfold run_instruction;
            cbv [name getattr_instruction instructions
                 String.eqb Ascii.eqb Bool.eqb];
            match goal with
            | |- ?R ?c (snd (?h ?i ?c)) =>
                revert c; change (respects R (h i));
                unfold h; try unfold parse_mem_ins, INS_NOT_IMPLEMENTED;
                repeat respects_step
            end ]
      | ]).
    contradiction.
  - unfold run_instruction. cbn [name].
    rewrite (getattr_instruction_None instructions n Hout).
    apply same_control_refl.
Qed.

(** X4. Only the syscall and debug handoffs ([ecall], [scall], [ebreak],
    [sbreak]) can change the cycle counter, the exit flag, the exit code,
    the configuration, the syscall interface or the output: dispatching any
    other instruction, a mnemonic without handler included, leaves them as
    they were, whether dispatch returns or raises.  So a pass of the loop
    counts exactly one cycle, also when its instruction raises, and when
    the fetch itself raises (pc is then not advanced). *)
Theorem only_handoffs_change_control (c : State) :
  (forall ins, ~ In (name ins) handoff ->
               same_control c (snd (run_instruction ins c))) /\
  (forall ins, MMU_read_ins (mmu c) (pc c) = Ok ins ->
               ~ In (name ins) handoff ->
               cycle (snd (step c)) = cycle c + 1 /\
               exit (snd (step c)) = exit c /\
               exit_code (snd (step c)) = exit_code c /\
               stdout (snd (step c)) = stdout c) /\
  (forall ex, MMU_read_ins (mmu c) (pc c) = Raise ex ->
              step c = (Raise ex, with_cycle c (cycle c + 1))).
Proof.
  split; [intros ins Hins; apply dispatch_same_control; exact Hins|].
  split.
  - intros ins Hfetch Hins. unfold step. cbn [mmu pc with_cycle].
    rewrite Hfetch.
    destruct (dispatch_same_control ins
                (with_pc (with_cycle c (cycle c + 1)) (pc c + 1)) Hins)
      as (Hcy & Hex & Hec & _ & _ & Hout).
    cbn [cycle exit exit_code stdout with_pc with_cycle] in Hcy, Hex, Hec, Hout.
    repeat split; assumption.
  - intros ex Hfetch. unfold step. cbn [mmu pc with_cycle].
    rewrite Hfetch. reflexivity.
Qed.

(** ** An instruction that raises has had no effect *)

Ltac split_innermost :=
  repeat
    (match goal with
     | |- context [match ?x with _ => _ end] =>
         lazymatch x with
         | context [match _ with _ => _ end] => fail
         | _ => destruct x eqn:?
         end
     end;
     cbv beta iota).

Ltac raise_unchanged_handler h :=
  cbv [h parse_mem_ins INS_NOT_IMPLEMENTED bind pure ret regs_get regs_set
       get_pc set_pc mmu_read];
  cbv beta iota;
  split_innermost;
  let E := fresh "E" in
  intros E;
  first [discriminate E | injection E as _ <-; reflexivity].

(** X5. When dispatching an instruction raises, the engine is as it was
    before dispatch, for every instruction but the stores and the syscall
    and debug handoffs (which hand the memory or the engine to a
    collaborator): operand decoding, operand count checks and the memory
    read of a load all come before the handler's first write. *)
Theorem raising_instruction_has_no_effect
  (ins : LoadedInstruction) (c c' : State) (ex : exn) :
  ~ In (name ins) (stores_to_memory ++ handoff) ->
  run_instruction ins c = (Raise ex, c') ->
  c' = c.
Proof.
  destruct ins as [n a]. unfold stores_to_memory, handoff. simpl.
  intros Hnot.
  destruct (in_dec string_dec n all_instructions) as [Hin|Hout].
  - unfold all_instructions, instructions in Hin. simpl in Hin.
    repeat (destruct Hin as [<-|Hin];
      [ first
          [ exfalso; apply Hnot; tauto
          | unfold run_instruction;
            cbv [name getattr_instruction instructions
                 String.eqb Ascii.eqb Bool.eqb];
            match goal with
            | |- ?h _ _ = _ -> _ => raise_unchanged_handler h
            end ]
      | ]).
    contradiction.
  - unfold run_instruction. cbn [name].
    rewrite (getattr_instruction_None instructions n Hout).
    intros E. injection E as _ <-. reflexivity.
Qed.

(** ** The registry of handlers *)


(** ** Runs *)


(** X8. Once a pass leaves the exit flag set, the loop fetches nothing
    more: the run returns, having printed one more line, the exit code the
    engine has then, and everything else is as that pass left it. *)
Theorem run_ends_when_exit_flag_set
  (n fuel : nat) (c0 c : State) (last : option LoadedInstruction) :
  0 < pc c0 ->
  after_passes n None c0 = Some (last, c) ->
  exit c = true ->
  (n <= fuel)%nat ->
  run fuel c0 = (Returned None, print (PrintExited (exit_code c)) c).
Proof.
  intros Hpc Hn Hexit Hle.
  rewrite (after_passes_pc_positive_run fuel c0 Hpc).
  replace fuel with (n + (fuel - n))%nat by lia.
  rewrite (run_loop_after_passes n (fuel - n) None last c0 c Hn).
  assert (E : run_loop (fuel - n) last c = (LoopExit, last, c)).
  { destruct (fuel - n)%nat; simpl; rewrite Hexit; reflexivity. }
  rewrite E. reflexivity.
Qed.

(** X9. The loop catches exactly the family of [RiscemuBaseException]:
    when an instruction raises an exception of the family (and no debug
    session is configured) the run prints the report and the exit code and
    returns; when it raises any other exception, the exception leaves
    [__run] and nothing is printed, not even the exit code. *)
Theorem run_catches_exactly_the_family
  (n fuel : nat) (c0 c c3 : State) (last : option LoadedInstruction)
  (ins : LoadedInstruction) (ex : exn) :
  0 < pc c0 ->
  after_passes n None c0 = Some (last, c) ->
  exit c = false ->
  MMU_read_ins (mmu c) (pc c) = Ok ins ->
  run_instruction ins (with_pc (with_cycle c (cycle c + 1)) (pc c + 1))
    = (Raise ex, c3) ->
  debug_on_exception (conf c3) = false ->
  (n < fuel)%nat ->
  run fuel c0 =
  if is_RiscemuBaseException ex
  then (Returned None,
        print (PrintExited (exit_code c3))
          (print (PrintMessage ex)
             (print (PrintExceptionCaught (pc c3 - 1) (Some ins)) c3)))
  else (Propagated ex, c3).
Proof.
  intros Hpc Hn Hexit Hfetch Hrun Hdebug Hlt.
  destruct (run_loop_fuel n fuel None last c0 c Hn Hlt) as [m Hm].
  rewrite (after_passes_pc_positive_run fuel c0 Hpc), Hm.
  rewrite (run_loop_instruction_raises m last c c3 ins ex Hexit Hfetch Hrun).
  destruct (is_RiscemuBaseException ex); [|reflexivity].
  cbv zeta.
  replace (conf (print (PrintMessage ex)
                   (print (PrintExceptionCaught (pc c3 - 1) (Some ins)) c3)))
    with (conf c3) by reflexivity.
  rewrite Hdebug. reflexivity.
Qed.

(** A straight-line instruction keeps pc and everything that controls the
    run. *)
Lemma straight_line_keeps_pc_and_control (ins : LoadedInstruction) (c : State) :
  In (name ins) straight_line ->
  pc (snd (run_instruction ins c)) = pc c /\
  same_control c (snd (run_instruction ins c)).
Proof.
  destruct ins as [n a]. unfold straight_line. simpl.
  intros Hn.
  set (R := fun c c' : State => pc c' = pc c /\ same_control c c').
  change (R c (snd (run_instruction (mkIns n a) c))).
  assert (Hrefl : forall c : State, R c c)
    by (intros; split; [reflexivity|apply same_control_refl]).
  assert (Htrans : forall c1 c2 c3 : State, R c1 c2 -> R c2 c3 -> R c1 c3).
  { intros c1 c2 c3 [P1 S1] [P2 S2]. split; [congruence|].
    apply (same_control_trans c1 c2 c3); assumption. }
  assert (Hregs : forall (c : State) rs, R c (with_regs c rs))
    by (intros; unfold R, same_control; repeat split).
  assert (Hmmu : forall (c : State) m, R c (with_mmu c m))
    by (intros; unfold R, same_control; repeat split).
  clearbody R.
  dispatch_cases Hn respects_handler.
Qed.

(** X10. A program of straight-line instructions runs in sequence: after
    [n] passes that fetched only arithmetic, logic, shift, comparison, load,
    store or [nop] instructions, pc and the cycle counter have both advanced
    by exactly [n], and the exit flag, the exit code and the output are
    untouched. *)
Theorem straight_line_passes_advance_pc_and_cycle (n : nat) :
  forall (c0 c : State) (last last' : option LoadedInstruction),
    after_passes n last c0 = Some (last', c) ->
    Forall (fun i => In (name i) straight_line) (fetched n c0) ->
    pc c = pc c0 + Z.of_nat n /\
    cycle c = cycle c0 + Z.of_nat n /\
    exit c = exit c0 /\ exit_code c = exit_code c0 /\ stdout c = stdout c0.
Proof.
  induction n as [|n IH]; intros c0 c last last' Hn Hall.
  - simpl in Hn. injection Hn as _ <-. repeat split; lia.
  - simpl in Hn, Hall.
    destruct (exit c0) eqn:Hexit0; [discriminate|].
    destruct (MMU_read_ins (mmu c0) (pc c0)) as [i|ex]; [|discriminate].
    inversion Hall as [|i' l Hi Hrest]; subst.
    pose proof (straight_line_keeps_pc_and_control i
                  (with_pc (with_cycle c0 (cycle c0 + 1)) (pc c0 + 1)) Hi)
      as [Hpc (Hcy & Hex & Hec & _ & _ & Hout)].
    destruct (run_instruction i _) as [[[]|ex] c3]; [|discriminate].
    destruct (IH c3 c (Some i) last' Hn Hrest) as (P & C & E & EC & O).
    simpl in Hpc, Hcy, Hex, Hec, Hout.
    rewrite Nat2Z.inj_succ.
    repeat split; try lia; congruence.
Qed.

(** ** Memory operands *)

(** X11. Both syntaxes of a memory instruction, [rd, rs1, imm] and
    [rd, imm(rs1)], resolve to the same access: a load reads the width of
    its mnemonic at the value of [rs1] plus [imm] and writes [rd] (with the
    [unsigned] flag for [lbu] and [lhu] only); a store writes that many
    bytes of the register given first at that address. *)
Theorem memory_operand_syntaxes_agree
  (c : State) (rd rs1 : reg) (imm : Z) :
  (forall n size unsigned,
     In (n, (size, unsigned)) load_widths ->
     run_instruction (ins_rri n rd rs1 imm) c = load_at size unsigned rd rs1 imm c /\
     run_instruction (ins_mem n rd imm rs1) c = load_at size unsigned rd rs1 imm c) /\
  (forall n size,
     In (n, size) store_widths ->
     run_instruction (ins_rri n rd rs1 imm) c = store_at size rd rs1 imm c /\
     run_instruction (ins_mem n rd imm rs1) c = store_at size rd rs1 imm c).
Proof.
  split.
  - intros n size unsigned Hn. unfold load_widths in Hn. simpl in Hn.
    repeat (destruct Hn as [E|Hn];
      [ injection E as <- <- <-;
        unfold load_at, stores, run_instruction, ins_rri, ins_mem; cbn;
        destruct (MMU_read _ _ _) as [data|ex]; [|split; reflexivity];
        destruct (int_from_bytes _ _) as [val|ex]; split; reflexivity
      | ]).
    contradiction.
  - intros n size Hn. unfold store_widths in Hn. simpl in Hn.
    repeat (destruct Hn as [E|Hn];
      [ injection E as <- <-;
        unfold store_at, run_instruction, ins_rri, ins_mem; cbn;
        destruct (int_to_bytes _ _) as [data|ex]; [|split; reflexivity];
        split; reflexivity
      | ]).
    contradiction.
Qed.

(** ** Jumps and branches *)

(** X12. [jalr rd, target] and the two-operand [jal rd, target] are the
    same instruction: the advanced pc is written to [rd], then pc is the
    immediate target (no base register is added).  [jal target] is
    [jal ra, target].  A [ret] executed next goes back to the advanced pc
    only when the link register was [ra]: otherwise it jumps to what [ra]
    held before. *)
Theorem jal_jalr_link_then_jump (c : State) (rd : reg) (target : Z) :
  let linked :=
    with_pc (with_regs c (Registers_set (regs c) rd (pc c))) target in
  run_instruction (mkIns "jal" [OReg rd; OImm target]) c = (Ok tt, linked) /\
  run_instruction (mkIns "jalr" [OReg rd; OImm target]) c = (Ok tt, linked) /\
  run_instruction (mkIns "jal" [OImm target]) c
    = run_instruction (mkIns "jal" [OReg "ra"; OImm target]) c /\
  run_instruction (mkIns "ret" []) linked
    = (Ok tt,
       with_pc linked
         (if String.eqb rd "ra" then pc c else Registers_get (regs c) "ra")).
Proof.
  intros linked.
  repeat split.
Qed.

(** X13. [beq] and [bne] on the same operands are complementary, and so
    are [blt] and [bge]: exactly one of the pair sets pc to the target and
    the other leaves the engine as it was. *)
Theorem complementary_branches (c : State) (rs1 rs2 : reg) (target : Z) :
  let taken := (Ok tt, with_pc c target) in
  let skipped := (Ok tt, c) in
  ((run_instruction (ins_branch "beq" rs1 rs2 target) c = taken /\
    run_instruction (ins_branch "bne" rs1 rs2 target) c = skipped) \/
   (run_instruction (ins_branch "beq" rs1 rs2 target) c = skipped /\
    run_instruction (ins_branch "bne" rs1 rs2 target) c = taken)) /\
  ((run_instruction (ins_branch "blt" rs1 rs2 target) c = taken /\
    run_instruction (ins_branch "bge" rs1 rs2 target) c = skipped) \/
   (run_instruction (ins_branch "blt" rs1 rs2 target) c = skipped /\
    run_instruction (ins_branch "bge" rs1 rs2 target) c = taken)).
Proof.
  intros taken skipped.
  destruct (signed_branches c rs1 rs2 target) as (Eeq & Ene & Elt & Ege).
  cbv zeta in Eeq, Ene, Elt, Ege.
  rewrite Eeq, Ene, Elt, Ege.
  split.
  - destruct (_ =? _); [left|right]; split; reflexivity.
  - rewrite Z.geb_leb, Z.leb_antisym.
    destruct (_ <? _); [left|right]; split; reflexivity.
Qed.

(** ** Comparisons and word-sized results *)

Lemma to_unsigned_int32 (a : Z) :
  int32 a -> to_unsigned a = if a <? 0 then a + 2 ^ 32 else a.
Proof.
  unfold int32, to_unsigned, XLEN. intros Ha.
  destruct (Z.ltb_spec a 0).
  - replace a with (a + 2 ^ 32 + (-1) * 2 ^ 32) at 1 by lia.
    rewrite Z.mod_add by lia. apply Z.mod_small. lia.
  - apply Z.mod_small. lia.
Qed.

Lemma to_signed_to_unsigned (a : Z) : int32 a -> to_signed (to_unsigned a) = a.
Proof.
  intros Ha. rewrite (to_unsigned_int32 a Ha).
  unfold int32 in Ha. unfold to_signed, XLEN. change (32 - 1) with 31.
  destruct (Z.ltb_spec a 0).
  - rewrite Z.mod_small by lia.
    destruct (Z.ltb_spec (a + 2 ^ 32) (2 ^ 31)); lia.
  - rewrite Z.mod_small by lia.
    destruct (Z.ltb_spec a (2 ^ 31)); lia.
Qed.

(** X14. On 32-bit register values [slt] stores 1 exactly when the first
    value is below the second as signed numbers and [sltu] exactly when it
    is below as unsigned words; the two results coincide when the operands
    have the same sign and are opposite when the signs differ. *)
Theorem slt_sltu_agree_iff_same_sign (c : State) (rd rs1 rs2 : reg) :
  let a := Registers_get (regs c) rs1 in
  let b := Registers_get (regs c) rs2 in
  int32 a -> int32 b ->
  run_instruction (ins_rrr "slt" rd rs1 rs2) c
    = stores c rd (int_of_bool (a <? b)) /\
  run_instruction (ins_rrr "sltu" rd rs1 rs2) c
    = stores c rd (int_of_bool (ltu a b)) /\
  ltu a b = if Bool.eqb (a <? 0) (b <? 0) then a <? b else negb (a <? b).
Proof.
  intros a b Ha Hb.
  split; [reflexivity|]. split; [reflexivity|].
  unfold ltu. rewrite (to_unsigned_int32 a Ha), (to_unsigned_int32 b Hb).
  unfold int32 in Ha, Hb.
  destruct (Z.ltb_spec a 0), (Z.ltb_spec b 0); simpl;
    repeat match goal with
           | |- context [?x <? ?y] => destruct (Z.ltb_spec x y)
           end;
    simpl; try reflexivity; lia.
Qed.

(** A number whose bits from position 31 on all equal its sign is a signed
    32-bit word. *)
Lemma int32_of_sign_bits (a : Z) :
  (forall j, 31 <= j -> Z.testbit a j = (a <? 0)) -> int32 a.
Proof.
  intros Hbits. unfold int32.
  destruct (Z.ltb_spec a 0) as [Hneg|Hpos].
  - split; [|lia].
    destruct (Z.lt_ge_cases (Z.pred (- a)) (2 ^ 31)) as [|Hbig]; [lia|].
    exfalso.
    assert (Hl : 31 <= Z.log2 (Z.pred (- a))).
    { apply Z.log2_le_pow2; lia. }
    pose proof (Hbits _ Hl) as Hb.
    replace a with (- - a) in Hb at 1 by lia.
    rewrite Z.bits_opp in Hb by lia.
    rewrite Z.bit_log2 in Hb by lia.
    destruct (Z.ltb_spec a 0); [discriminate Hb|lia].
  - split; [lia|].
    destruct (Z.lt_ge_cases a (2 ^ 31)) as [|Hbig]; [assumption|].
    exfalso.
    assert (Hl : 31 <= Z.log2 a) by (apply Z.log2_le_pow2; lia).
    pose proof (Hbits _ Hl) as Hb.
    rewrite Z.bit_log2 in Hb by lia.
    destruct (Z.ltb_spec a 0); [lia|discriminate Hb].
Qed.

Lemma int32_land (a b : Z) : int32 a -> int32 b -> int32 (Z.land a b).
Proof.
  intros Ha Hb. apply int32_of_sign_bits. intros j Hj.
  rewrite Z.land_spec, (int32_sign_bits a j Ha Hj), (int32_sign_bits b j Hb Hj).
  pose proof (Z.land_neg a b).
  destruct (Z.ltb_spec a 0), (Z.ltb_spec b 0), (Z.ltb_spec (Z.land a b) 0);
    simpl; try reflexivity; lia.
Qed.

Lemma int32_lor (a b : Z) : int32 a -> int32 b -> int32 (Z.lor a b).
Proof.
  intros Ha Hb. apply int32_of_sign_bits. intros j Hj.
  rewrite Z.lor_spec, (int32_sign_bits a j Ha Hj), (int32_sign_bits b j Hb Hj).
  pose proof (Z.lor_neg a b).
  destruct (Z.ltb_spec a 0), (Z.ltb_spec b 0), (Z.ltb_spec (Z.lor a b) 0);
    simpl; try reflexivity; lia.
Qed.

Lemma int32_lxor (a b : Z) : int32 a -> int32 b -> int32 (Z.lxor a b).
Proof.
  intros Ha Hb. apply int32_of_sign_bits. intros j Hj.
  rewrite Z.lxor_spec, (int32_sign_bits a j Ha Hj), (int32_sign_bits b j Hb Hj).
  pose proof (Z.lxor_nonneg a b).
  destruct (Z.ltb_spec a 0), (Z.ltb_spec b 0), (Z.ltb_spec (Z.lxor a b) 0);
    simpl; try reflexivity; lia.
Qed.

Lemma int32_int_of_bool (b : bool) : int32 (int_of_bool b).
Proof. unfold int32. destruct b; simpl; lia. Qed.

(** X15. The bitwise, right-shift and comparison instructions keep
    registers word-sized: when the source registers hold signed 32-bit
    values, the value stored by [and], [or], [xor], [srl], [sra], [srli],
    [srai], [slt] and [sltu] is a signed 32-bit value again. *)
Theorem logic_shift_compare_results_are_words
  (c : State) (rd rs1 rs2 : reg) (imm : Z) :
  int32 (Registers_get (regs c) rs1) ->
  int32 (Registers_get (regs c) rs2) ->
  (forall n, In n ["and"; "or"; "xor"; "srl"; "sra"; "slt"; "sltu"] ->
     exists v, run_instruction (ins_rrr n rd rs1 rs2) c = stores c rd v /\
               int32 v) /\
  (forall n, In n ["srli"; "srai"] ->
     exists v, run_instruction (ins_rri n rd rs1 imm) c = stores c rd v /\
               int32 v).
Proof.
  intros Ha Hb.
  assert (Hk : forall k, 0 <= Z.land k 31 < 32).
  { intros k. rewrite land_31_mod_32. apply Z.mod_pos_bound. lia. }
  split; intros n Hn; simpl in Hn.
  - destruct Hn as [<-|[<-|[<-|[<-|[<-|[<-|[<-|[]]]]]]]];
      eexists; (split; [reflexivity|]).
    + apply int32_land; assumption.
    + apply int32_lor; assumption.
    + apply int32_lxor; assumption.
    + apply to_signed_int32.
    + apply (sra_value_sign_filled _ _ Ha (Hk _)).
    + apply int32_int_of_bool.
    + apply int32_int_of_bool.
  - destruct Hn as [<-|[<-|[]]]; eexists; (split; [reflexivity|]).
    + apply to_signed_int32.
    + apply (sra_value_sign_filled _ _ Ha (Hk _)).
Qed.

Lemma stores_injective (c : State) (rd : reg) (v w : Z) :
  stores c rd v = stores c rd w -> v = w.
Proof.
  unfold stores, with_regs. intros E.
  injection E as E.
  apply (f_equal (fun rs : Registers => rs rd)) in E.
  unfold Registers_set in E. rewrite String.eqb_refl in E. exact E.
Qed.

(** X16. The logical and the arithmetic right shift of a 32-bit register
    value store the same result exactly when the value is not negative or
    the distance is a multiple of 32. *)
Theorem srli_srai_agree_iff_non_negative
  (c : State) (rd rs1 : reg) (imm : Z) :
  int32 (Registers_get (regs c) rs1) ->
  (run_instruction (ins_rri "srli" rd rs1 imm) c
   = run_instruction (ins_rri "srai" rd rs1 imm) c
   <-> 0 <= Registers_get (regs c) rs1 \/ imm mod 32 = 0).
Proof.
  intros Ha.
  destruct (shift_handlers c rd rs1 rs1 imm) as (_ & _ & _ & _ & Esrli & Esrai).
  cbv zeta in Esrli, Esrai. rewrite Esrli, Esrai.
  set (a := Registers_get (regs c) rs1) in *.
  assert (Hk : 0 <= imm mod 32 < 32) by (apply Z.mod_pos_bound; lia).
  destruct (srl_value_zero_filled a (imm mod 32) Hk) as (_ & _ & _ & Hnonneg).
  destruct (sra_value_sign_filled a (imm mod 32) Ha Hk) as (_ & Ediv & _ & Hsign).
  split.
  - intros E. apply stores_injective in E.
    destruct (Z.lt_ge_cases a 0) as [Hneg|Hpos]; [|left; lia].
    destruct (Z.eq_dec (imm mod 32) 0) as [|Hnz]; [right; assumption|].
    exfalso. apply Hsign in Hneg. rewrite <- E in Hneg.
    assert (0 <= to_signed (Z.shiftr (to_unsigned a) (imm mod 32)))
      by (apply Hnonneg; lia).
    lia.
  - intros [Hpos|Hzero]; f_equal.
    + unfold int32 in Ha.
      rewrite (to_unsigned_int32 a Ha).
      destruct (Z.ltb_spec a 0); [lia|].
      apply to_signed_small.
      rewrite Z.shiftr_div_pow2 by lia.
      assert (0 < 2 ^ (imm mod 32)) by (apply Z.pow_pos_nonneg; lia).
      split; [apply Z.div_pos; lia|].
      apply Z.div_lt_upper_bound; nia.
    + rewrite Hzero, !Z.shiftr_0_r. apply to_signed_to_unsigned. exact Ha.
Qed.


(** ** Operand counts *)

(** X18. A handler that checks its operand count raises, before it reads
    or writes anything, when the count is not one it accepts: 3 for the
    arithmetic, logic, shift, comparison and branch instructions, 2 or 3 for
    loads and stores, 1 for [j], 1 or 2 for [jal], 2 for [jalr], 0 for
    [ret], [ecall] and [scall].  The engine is left as it was; in
    particular the syscall handler is not called. *)
Theorem wrong_operand_count_raises
  (n : string) (counts : list nat) (a : list operand) (c : State) :
  In (n, counts) operand_counts ->
  ~ In (length a) counts ->
  exists ex, run_instruction (mkIns n a) c = (Raise ex, c).
Proof.
  unfold operand_counts. simpl.
  intros Hn Hlen.
  repeat (destruct Hn as [E|Hn];
    [ injection E as <- <-;
      try (assert (E0 : Nat.eqb (length a) 0 = false)
             by (apply Nat.eqb_neq; intros E0; apply Hlen; rewrite E0;
                 simpl; tauto));
      try (assert (E1 : Nat.eqb (length a) 1 = false)
             by (apply Nat.eqb_neq; intros E1; apply Hlen; rewrite E1;
                 simpl; tauto));
      try (assert (E2 : Nat.eqb (length a) 2 = false)
             by (apply Nat.eqb_neq; intros E2; apply Hlen; rewrite E2;
                 simpl; tauto));
      try (assert (E3 : Nat.eqb (length a) 3 = false)
             by (apply Nat.eqb_neq; intros E3; apply Hlen; rewrite E3;
                 simpl; tauto));
      unfold run_instruction;
      cbv [name getattr_instruction instructions
           String.eqb Ascii.eqb Bool.eqb];
      match goal with
      | |- exists _, ?h _ _ = _ =>
          cbv [h instruction_scall parse_mem_ins bind pure ret ASSERT_LEN args];
          rewrite ?E0, ?E1, ?E2, ?E3;
          eexists; reflexivity
      end
    | ]).
  contradiction.
Qed.

(** ** The debug session of the fault boundary *)

(** X19. When a fault of the family is caught and [debug_on_exception] is
    set, the debug session is launched after the two report lines, on the
    engine as the fault left it.  If the session returns, the run prints
    the exit code the session left and returns; if the session raises, its
    exception leaves [__run], even when it belongs to the family, and the
    exit code is not printed. *)
Theorem debug_session_after_caught_fault
  (n fuel : nat) (c0 c c3 c4 : State) (last : option LoadedInstruction)
  (ins : LoadedInstruction) (ex : exn) (r : res unit) :
  0 < pc c0 ->
  after_passes n None c0 = Some (last, c) ->
  exit c = false ->
  MMU_read_ins (mmu c) (pc c) = Ok ins ->
  run_instruction ins (with_pc (with_cycle c (cycle c + 1)) (pc c + 1))
    = (Raise ex, c3) ->
  is_RiscemuBaseException ex = true ->
  debug_on_exception (conf c3) = true ->
  launch_debug_session DebugExceptionEncountered
    (print (PrintMessage ex)
       (print (PrintExceptionCaught (pc c3 - 1) (Some ins)) c3)) = (r, c4) ->
  (n < fuel)%nat ->
  run fuel c0 =
  match r with
  | Ok _ => (Returned None, print (PrintExited (exit_code c4)) c4)
  | Raise ex' => (Propagated ex', c4)
  end.
Proof.
  intros Hpc Hn Hexit Hfetch Hrun Hex Hdebug Hsession Hlt.
  destruct (run_loop_fuel n fuel None last c0 c Hn Hlt) as [m Hm].
  rewrite (after_passes_pc_positive_run fuel c0 Hpc), Hm.
  rewrite (run_loop_instruction_raises m last c c3 ins ex Hexit Hfetch Hrun).
  rewrite Hex. cbv zeta.
  replace (conf (print (PrintMessage ex)
                   (print (PrintExceptionCaught (pc c3 - 1) (Some ins)) c3)))
    with (conf c3) by reflexivity.
  rewrite Hdebug, Hsession.
  destruct r; reflexivity.
Qed.

(** ** The handoffs *)

(** X20. [ecall] is [scall] and [ebreak] is [sbreak], on every operand
    list and engine.  With no operand the syscall handler is handed the
    value of [a7] and the engine; the debug session of a breakpoint fetched
    at pc is handed the engine with pc already advanced, whatever the
    operands are, and is told the advanced pc, the address after the
    breakpoint. *)
Theorem system_handoffs (c : State) (a : list operand) :
  run_instruction (mkIns "ecall" a) c = run_instruction (mkIns "scall" a) c /\
  run_instruction (mkIns "ebreak" a) c = run_instruction (mkIns "sbreak" a) c /\
  run_instruction (mkIns "ecall" []) c
    = handle_syscall (Registers_get (regs c) "a7") c /\
  forall n, In n ["ebreak"; "sbreak"] ->
    MMU_read_ins (mmu c) (pc c) = Ok (mkIns n a) ->
    step c
    = launch_debug_session (DebugInstructionEncountered (pc c + 1))
        (with_pc (with_cycle c (cycle c + 1)) (pc c + 1)).
Proof.
  split; [reflexivity|]. split; [reflexivity|]. split; [reflexivity|].
  intros n Hn Hfetch. unfold step. cbn [mmu pc with_cycle]. rewrite Hfetch.
  simpl in Hn. destruct Hn as [<-|[<-|[]]]; reflexivity.
Qed.

End Engine.

(** * The properties on the small machine *)

Local Abbreviation example f :=
  (f Example.Memory unit Example.read Example.write Example.from_bytes
     Example.to_bytes Example.to_unsigned_ref Example.syscall Example.debug).

Local Abbreviation example_loop f :=
  (f Example.Memory unit Example.read_ins Example.read Example.write
     Example.from_bytes Example.to_bytes Example.to_unsigned_ref
     Example.syscall Example.debug).

(** [sra a2, a0, a1] with [a1 = 33] and with [a1 = 1], on [a0 = - 5]. *)
Lemma shift_distance_modulo_32_witness :
  let c33 := Example.cpu [] 1 (Example.regs_a0_a1 (- 5) 33) in
  let c1 := Example.cpu [] 1 (Example.regs_a0_a1 (- 5) 1) in
  Registers_get (regs c1) "a0" = Registers_get (regs c33) "a0" /\
  Registers_get (regs c33) "a1" = 33 /\
  Registers_get (regs c1) "a1" = 1 /\
  In "sra" ["sll"; "srl"; "sra"] /\
  exists v,
    example run_instruction (ins_rrr "sra" "a2" "a0" "a1") c33
      = stores _ _ c33 "a2" v /\
    example run_instruction (ins_rrr "sra" "a2" "a0" "a1") c1
      = stores _ _ c1 "a2" v.
Proof.
  intros c33 c1.
  split; [reflexivity|].
  split; [reflexivity|].
  split; [reflexivity|].
  split; [simpl; auto|].
  destruct (example shift_distance_modulo_32 c33 c1 "a2" "a0" "a1" 33)
    as (_ & _ & _ & H).
  apply (H eq_refl eq_refl eq_refl "sra").
  simpl; auto.
Defined.

(** [srli a2, a0, 1] and [srai a2, a0, 1] on the word whose only set bit
    is the sign bit. *)
Lemma srl_zero_fills_sra_sign_fills_witness :
  let c := Example.cpu [] 1 (Example.regs_a0_a1 (- 2147483648) 0) in
  int32 (Registers_get (regs c) "a0") /\
  example run_instruction (ins_rri "srli" "a2" "a0" 1) c
    = stores _ _ c "a2" 1073741824 /\
  example run_instruction (ins_rri "srai" "a2" "a0" 1) c
    = stores _ _ c "a2" (- 1073741824).
Proof.
  intros c.
  assert (Ha : int32 (Registers_get (regs c) "a0")) by (vm_compute; split; congruence).
  split; [exact Ha|].
  destruct (example srl_zero_fills_sra_sign_fills c "a2" "a0" "a1" 1 Ha)
    as (_ & _ & _ & _ & H).
  apply (H eq_refl eq_refl).
Defined.

(** [jal 7] at address 1 and [ret] at address 7. *)
Lemma jal_links_advanced_pc_ret_restores_witness :
  let prog := [(1, mkIns "jal" [OImm 7]); (7, mkIns "ret" [])] in
  let c := Example.cpu prog 1 Registers_new in
  Example.read_ins (mmu c) (pc c) = Ok (mkIns "jal" [OImm 7]) /\
  Registers_get (regs (snd (example_loop step c))) "ra" = 2 /\
  pc (snd (example_loop step c)) = 7 /\
  pc (snd (example_loop step (snd (example_loop step c)))) = 2.
Proof.
  intros prog c.
  assert (Hfetch : Example.read_ins (mmu c) (pc c) = Ok (mkIns "jal" [OImm 7]))
    by reflexivity.
  destruct (example_loop jal_links_advanced_pc_ret_restores c 7 Hfetch)
    as (_ & Hra & Hpc & _).
  split; [exact Hfetch|].
  split; [exact Hra|].
  split; [exact Hpc|].
  reflexivity.
Defined.

(** [lui a0, 5]. *)
Lemma unimplemented_raise_fault_witness :
  let ins := mkIns "lui" [OReg "a0"; OImm 5] in
  let c := Example.cpu [] 1 Registers_new in
  In (name ins) unimplemented /\
  example run_instruction ins c = (Raise (UnimplementedInstruction ins), c).
Proof.
  intros ins c.
  assert (Hn : In (name ins) unimplemented) by (simpl; auto).
  split; [exact Hn|].
  apply (example unimplemented_raise_fault ins c Hn).
Defined.

(** [lw a0, 4(sp)], whose read is a memory fault on the small machine. *)
Lemma straight_line_preserves_pc_witness :
  let ins := mkIns "lw" [OReg "a0"; OImmReg 4 "sp"] in
  let c := Example.cpu [] 1 Registers_new in
  In (name ins) straight_line /\
  pc (snd (example run_instruction ins c)) = 1.
Proof.
  intros ins c.
  assert (Hn : In (name ins) straight_line) by (simpl; auto 20).
  split; [exact Hn|].
  apply (example straight_line_preserves_pc ins c Hn).
Defined.

(** A program whose first instruction is [mul a0, a0, a1], a mnemonic
    without a handler. *)
Lemma unknown_mnemonic_propagates_witness :
  let ins := ins_rrr "mul" "a0" "a0" "a1" in
  let c := Example.cpu [(1, ins)] 1 Registers_new in
  ~ In (name ins) (example all_instructions) /\
  exists msg,
    fst (example_loop run 1%nat c) = Propagated (RuntimeError msg ins) /\
    stdout (snd (example_loop run 1%nat c)) = [].
Proof.
  intros ins c.
  assert (Hn : ~ In (name ins) (example all_instructions)).
  { vm_compute. intros H.
    repeat (destruct H as [H|H]; [discriminate H|]). exact H. }
  split; [exact Hn|].
  destruct (example_loop unknown_mnemonic_propagates ins c Hn)
    as (msg & _ & _ & H).
  exists msg.
  destruct (H 0%nat 1%nat c None) as (Hrun & Hout);
    [reflexivity | reflexivity | reflexivity | reflexivity | lia |].
  rewrite Hrun. split; [reflexivity|exact Hout].
Defined.

(** A run from address 1 of an empty memory: the report names address 0
    and no instruction. *)
Lemma fetch_fault_reports_previous_instruction_witness :
  let c := Example.cpu [] 1 Registers_new in
  0 < pc c /\
  Example.read_ins (mmu c) (pc c)
    = Raise (MemoryFault "no instruction at this address") /\
  fst (example_loop run 1%nat c) = Returned None /\
  stdout (snd (example_loop run 1%nat c))
    = [PrintExceptionCaught 0 None;
       PrintMessage (MemoryFault "no instruction at this address");
       PrintExited 0].
Proof.
  intros c.
  split; [reflexivity|].
  split; [reflexivity|].
  destruct (example_loop fetch_fault_reports_previous_instruction
              0%nat 1%nat c c None "no instruction at this address")
    as (Hret & Hout & _);
    [reflexivity | reflexivity | reflexivity | reflexivity | reflexivity | lia |].
  split; [exact Hret|exact Hout].
Defined.

(** [bltu a0, a1, 100] with [a0 = 0] and [a1 = 1], where [to_unsigned] of a
    register name raises [TypeError] as on Python: the run is left by the
    error, which the loop does not catch, and nothing is printed. *)
Lemma bltu_raises_on_register_name :
  let ins := ins_branch "bltu" "a0" "a1" 100 in
  let c := Example.cpu [(5, ins)] 5 (Example.regs_a0_a1 0 1) in
  ltu (Registers_get (regs c) "a0") (Registers_get (regs c) "a1") = true /\
  exists msg,
    fst (example_loop run 1%nat c) = Propagated (TypeError msg) /\
    pc (snd (example_loop run 1%nat c)) = 6 /\
    stdout (snd (example_loop run 1%nat c)) = [].
Proof.
  intros ins c.
  split; [reflexivity|].
  eexists. repeat split; reflexivity.
Qed.

(** A freshly constructed engine, loaded with an entry address whose fetch
    is a memory fault: the exit code was never set and the run reports 0. *)
Lemma fresh_engine_reports_exit_code_0 :
  let c := init Example.Memory unit (mkConf false false) [] tt in
  example_loop run_loaded 1%nat 1 4096 8192 c
  = (Returned None,
     mkCPU 1 1 false 0 (mkConf false false) []
           (Registers_set (Registers_set Registers_new "sp" 4096) "a0" 8192) tt
           [PrintExceptionCaught 0 None;
            PrintMessage (MemoryFault "no instruction at this address");
            PrintExited 0]).
Proof. reflexivity. Qed.

(** * The further properties on the small machine *)

(** [lw a0, 4(sp)] faults on the small machine and changes nothing;
    [addi a0, a1, 3] writes [a0] only. *)
Lemma register_writers_write_destination_only_witness :
  let ins := ins_rri "addi" "a0" "a1" 3 in
  let c := Example.cpu [] 1 (Example.regs_a0_a1 5 7) in
  In (name ins) register_writers /\
  writes_destination_only _ _ ins c (snd (example run_instruction ins c)).
Proof.
  intros ins c.
  assert (Hn : In (name ins) register_writers) by (simpl; tauto).
  split; [exact Hn|].
  apply (example register_writers_write_destination_only ins c Hn).
Defined.

(** [sw a0, 4(sp)]. *)
Lemma stores_change_memory_only_witness :
  let ins := ins_mem "sw" "a0" 4 "sp" in
  let c := Example.cpu [] 1 Registers_new in
  In (name ins) stores_to_memory /\
  only_mmu _ _ c (snd (example run_instruction ins c)).
Proof.
  intros ins c.
  assert (Hn : In (name ins) stores_to_memory) by (simpl; tauto).
  split; [exact Hn|].
  apply (example stores_change_memory_only ins c Hn).
Defined.

(** [blt a0, a1, 100]. *)
Lemma pc_writers_change_pc_only_witness :
  let ins := ins_branch "blt" "a0" "a1" 100 in
  let c := Example.cpu [] 5 (Example.regs_a0_a1 0 1) in
  In (name ins) pc_writers /\
  only_pc _ _ c (snd (example run_instruction ins c)).
Proof.
  intros ins c.
  assert (Hn : In (name ins) pc_writers) by (simpl; tauto).
  split; [exact Hn|].
  apply (example pc_writers_change_pc_only ins c Hn).
Defined.

(** A pass over [add a0, a0, a1] at address 1. *)
Lemma only_handoffs_change_control_witness :
  let ins := ins_rrr "add" "a0" "a0" "a1" in
  let c := Example.cpu [(1, ins)] 1 (Example.regs_a0_a1 2 3) in
  Example.read_ins (mmu c) (pc c) = Ok ins /\
  ~ In (name ins) handoff /\
  cycle (snd (example_loop step c)) = 1 /\
  exit (snd (example_loop step c)) = false.
Proof.
  intros ins c.
  assert (Hn : ~ In (name ins) handoff).
  { simpl. intros H. repeat (destruct H as [H|H]; [discriminate H|]). exact H. }
  split; [reflexivity|].
  split; [exact Hn|].
  destruct (example_loop only_handoffs_change_control c) as (_ & H & _).
  destruct (H ins eq_refl Hn) as (Hcy & Hex & _).
  split; [exact Hcy|exact Hex].
Defined.

(** [lw a0, 4(sp)] raises a memory fault on the small machine. *)
Lemma raising_instruction_has_no_effect_witness :
  let ins := ins_mem "lw" "a0" 4 "sp" in
  let c := Example.cpu [] 1 Registers_new in
  ~ In (name ins) (stores_to_memory ++ handoff) /\
  example run_instruction ins c
  = (Raise (MemoryFault "no data at this address"), c).
Proof.
  intros ins c.
  assert (Hn : ~ In (name ins) (stores_to_memory ++ handoff)).
  { simpl. intros H. repeat (destruct H as [H|H]; [discriminate H|]). exact H. }
  split; [exact Hn|].
  pose proof (example raising_instruction_has_no_effect ins c
                (snd (example run_instruction ins c))
                (MemoryFault "no data at this address") Hn eq_refl) as H.
  exact (f_equal
           (fun s => (Raise (A := unit) (MemoryFault "no data at this address"), s))
           H).
Defined.


(** [ecall] at address 1 with [a0 = 7]: the exit call of the small machine
    sets the exit flag and the exit code 7. *)
Lemma run_ends_when_exit_flag_set_witness :
  let prog := [(1, mkIns "ecall" [])] in
  let c0 := Example.cpu prog 1 (Example.regs_a0_a1 7 0) in
  0 < pc c0 /\
  fst (example_loop run 5%nat c0) = Returned None /\
  stdout (snd (example_loop run 5%nat c0)) = [PrintExited 7].
Proof.
  intros prog c0.
  split; [reflexivity|].
  pose (c := mkCPU 2 1 true 7 (mkConf false false) prog
                   (Example.regs_a0_a1 7 0) tt []).
  rewrite (example_loop run_ends_when_exit_flag_set 1%nat 5%nat c0 c
             (Some (mkIns "ecall" [])));
    [split; reflexivity | reflexivity | reflexivity | reflexivity | lia].
Defined.

(** [lw a0, 4(sp)] at address 1: the memory fault is caught. *)
Lemma run_catches_exactly_the_family_witness :
  let ins := ins_mem "lw" "a0" 4 "sp" in
  let c0 := Example.cpu [(1, ins)] 1 Registers_new in
  Example.read_ins (mmu c0) (pc c0) = Ok ins /\
  fst (example_loop run 1%nat c0) = Returned None /\
  stdout (snd (example_loop run 1%nat c0))
  = [PrintExceptionCaught 1 (Some ins);
     PrintMessage (MemoryFault "no data at this address");
     PrintExited 0].
Proof.
  intros ins c0.
  split; [reflexivity|].
  rewrite (example_loop run_catches_exactly_the_family 0%nat 1%nat c0 c0
             (with_pc _ _ (with_cycle _ _ c0 1) 2) None ins
             (MemoryFault "no data at this address"));
    [split; reflexivity
    | reflexivity | reflexivity | reflexivity | reflexivity | reflexivity
    | reflexivity | lia].
Defined.

(** Three straight-line instructions from address 1. *)
Lemma straight_line_passes_advance_pc_and_cycle_witness :
  let prog := [(1, ins_rri "addi" "a0" "a0" 1); (2, mkIns "nop" []);
               (3, ins_rrr "add" "a1" "a0" "a0")] in
  let c0 := Example.cpu prog 1 Registers_new in
  Forall (fun i => In (name i) straight_line) (example_loop fetched 3%nat c0) /\
  exists last c,
    example_loop after_passes 3%nat None c0 = Some (last, c) /\
    pc c = 4 /\ cycle c = 3 /\ Registers_get (regs c) "a1" = 2.
Proof.
  intros prog c0.
  assert (Hall : Forall (fun i => In (name i) straight_line)
                        (example_loop fetched 3%nat c0)).
  { repeat constructor; simpl; tauto. }
  split; [exact Hall|].
  eexists. eexists.
  split; [reflexivity|].
  destruct (example_loop straight_line_passes_advance_pc_and_cycle 3%nat c0 _
              None _ eq_refl Hall) as (Hpc & Hcy & _).
  split; [exact Hpc|]. split; [exact Hcy|reflexivity].
Defined.

(** [lw a0, sp, 4] and [lw a0, 4(sp)]. *)
Lemma memory_operand_syntaxes_agree_witness :
  let c := Example.cpu [] 1 Registers_new in
  In ("lw", (4, false)) load_widths /\
  example run_instruction (ins_rri "lw" "a0" "sp" 4) c
  = example run_instruction (ins_mem "lw" "a0" 4 "sp") c.
Proof.
  intros c.
  assert (Hn : In ("lw", (4, false)) load_widths) by (simpl; tauto).
  split; [exact Hn|].
  destruct (example memory_operand_syntaxes_agree c "a0" "sp" 4) as (H & _).
  destruct (H "lw" 4 false Hn) as (E3 & E2).
  rewrite E3, E2. reflexivity.
Defined.

(** [slt] and [sltu] on [- 1] and [0]: signs differ, results are opposite. *)
Lemma slt_sltu_agree_iff_same_sign_witness :
  let c := Example.cpu [] 1 (Example.regs_a0_a1 (- 1) 0) in
  int32 (Registers_get (regs c) "a0") /\
  int32 (Registers_get (regs c) "a1") /\
  example run_instruction (ins_rrr "slt" "a2" "a0" "a1") c = stores _ _ c "a2" 1 /\
  example run_instruction (ins_rrr "sltu" "a2" "a0" "a1") c = stores _ _ c "a2" 0.
Proof.
  intros c.
  assert (Ha : int32 (Registers_get (regs c) "a0")) by (vm_compute; split; congruence).
  assert (Hb : int32 (Registers_get (regs c) "a1")) by (vm_compute; split; congruence).
  split; [exact Ha|]. split; [exact Hb|].
  destruct (example slt_sltu_agree_iff_same_sign c "a2" "a0" "a1" Ha Hb)
    as (Eslt & Esltu & _).
  split; [exact Eslt|exact Esltu].
Defined.

(** [xor a2, a0, a1] on [- 1] and [2147483647]. *)
Lemma logic_shift_compare_results_are_words_witness :
  let c := Example.cpu [] 1 (Example.regs_a0_a1 (- 1) 2147483647) in
  int32 (Registers_get (regs c) "a0") /\
  int32 (Registers_get (regs c) "a1") /\
  exists v,
    example run_instruction (ins_rrr "xor" "a2" "a0" "a1") c = stores _ _ c "a2" v /\
    int32 v.
Proof.
  intros c.
  assert (Ha : int32 (Registers_get (regs c) "a0")) by (vm_compute; split; congruence).
  assert (Hb : int32 (Registers_get (regs c) "a1")) by (vm_compute; split; congruence).
  split; [exact Ha|]. split; [exact Hb|].
  destruct (example logic_shift_compare_results_are_words c "a2" "a0" "a1" 0 Ha Hb)
    as (H & _).
  apply (H "xor"). simpl. tauto.
Defined.

(** [srli] and [srai] by 4 on [- 16] differ. *)
Lemma srli_srai_agree_iff_non_negative_witness :
  let c := Example.cpu [] 1 (Example.regs_a0_a1 (- 16) 0) in
  int32 (Registers_get (regs c) "a0") /\
  example run_instruction (ins_rri "srli" "a2" "a0" 4) c
  <> example run_instruction (ins_rri "srai" "a2" "a0" 4) c.
Proof.
  intros c.
  assert (Ha : int32 (Registers_get (regs c) "a0")) by (vm_compute; split; congruence).
  split; [exact Ha|].
  intros E.
  apply (example srli_srai_agree_iff_non_negative c "a2" "a0" 4 Ha) in E.
  destruct E as [E|E]; vm_compute in E; [apply E; reflexivity|discriminate E].
Defined.

(** [add a0, a1] has two operands. *)
Lemma wrong_operand_count_raises_witness :
  let a := [OReg "a0"; OReg "a1"] in
  let c := Example.cpu [] 1 Registers_new in
  In ("add", [3%nat]) operand_counts /\
  ~ In (length a) [3%nat] /\
  exists ex, example run_instruction (mkIns "add" a) c = (Raise ex, c).
Proof.
  intros a c.
  assert (Hn : In ("add", [3%nat]) operand_counts) by (simpl; tauto).
  assert (Hl : ~ In (length a) [3%nat]).
  { simpl. intros [H|H]; [discriminate H|exact H]. }
  split; [exact Hn|]. split; [exact Hl|].
  apply (example wrong_operand_count_raises "add" [3%nat] a c Hn Hl).
Defined.

(** [lw a0, 4(sp)] at address 1 with [debug_on_exception] set: the debug
    session of the small machine returns at once. *)
Lemma debug_session_after_caught_fault_witness :
  let ins := ins_mem "lw" "a0" 4 "sp" in
  let c0 := mkCPU 1 0 false 0 (mkConf false true) [(1, ins)] Registers_new tt [] in
  Example.read_ins (mmu c0) (pc c0) = Ok ins /\
  debug_on_exception (conf c0) = true /\
  fst (example_loop run 1%nat c0) = Returned None /\
  stdout (snd (example_loop run 1%nat c0))
  = [PrintExceptionCaught 1 (Some ins);
     PrintMessage (MemoryFault "no data at this address");
     PrintExited 0].
Proof.
  intros ins c0.
  split; [reflexivity|]. split; [reflexivity|].
  rewrite (example_loop debug_session_after_caught_fault 0%nat 1%nat c0 c0
             (with_pc _ _ (with_cycle _ _ c0 1) 2)
             (print _ _ (PrintMessage (MemoryFault "no data at this address"))
                (print _ _ (PrintExceptionCaught 1 (Some ins))
                   (with_pc _ _ (with_cycle _ _ c0 1) 2)))
             None ins (MemoryFault "no data at this address") (Ok tt));
    [split; reflexivity
    | reflexivity | reflexivity | reflexivity | reflexivity | reflexivity
    | reflexivity | reflexivity | reflexivity | lia].
Defined.

(** [ebreak] at address 1. *)
Lemma system_handoffs_witness :
  let c := Example.cpu [(1, mkIns "ebreak" [])] 1 Registers_new in
  In "ebreak" ["ebreak"; "sbreak"] /\
  Example.read_ins (mmu c) (pc c) = Ok (mkIns "ebreak" []) /\
  example_loop step c
  = Example.debug (DebugInstructionEncountered 2)
      (with_pc _ _ (with_cycle _ _ c 1) 2).
Proof.
  intros c.
  assert (Hn : In "ebreak" ["ebreak"; "sbreak"]) by (simpl; tauto).
  split; [exact Hn|]. split; [reflexivity|].
  destruct (example_loop system_handoffs c []) as (_ & _ & _ & H).
  apply (H "ebreak" Hn eq_refl).
Defined.
